(** * Minecraft modpack startup tester: log classification and report

    Shallow embedding of [src/minecraft_tester.py] (class [MinecraftTester])
    and the properties of its classifier and reporter.

    Text is a Rocq [string]: one [ascii] per code point below 256.  On that
    range Python's [re.IGNORECASE] on the ASCII pattern letters used by the
    source is plain ASCII case folding, and [".*"] stops at a line feed.
    Beyond that range [re.IGNORECASE] also accepts the case partners
    U+0130 and U+0131 of [i], U+017F of [s] and U+212A of [k], and the
    class [\s] has further members; this alphabet has none of them.
    The three glyphs of the source's own messages that lie outside the
    range are kept as their UTF-8 bytes.

    What is modelled: [__init__], [launch_minecraft], [monitor_logs],
    [analyze_log_content], [terminate_minecraft], [generate_report] and
    [run_test].  The monitor thread is joined as soon as it is started, so
    the run is sequential; [print] does not fail; an interrupt from the
    keyboard is not modelled.  Of [main], the [try]
    block is modelled: the tester is built, run, and the report commented
    on; the dialogue that reads the configuration is left out. *)

From Stdlib Require Import Ascii String NArith.
From stdpp Require Import gmap strings list fin_maps pretty.

Local Open Scope string_scope.
Local Open Scope nat_scope.
Local Open Scope list_scope.
Local Open Scope stdpp_scope.

(** ** Characters and strings *)

Module Text.

Definition code (a : ascii) : N := N_of_ascii a.

Definition between (lo hi : N) (a : ascii) : bool :=
  ((lo <=? code a) && (code a <=? hi))%N.

Definition is_upper : ascii -> bool := between 65 90.
Definition is_lower : ascii -> bool := between 97 122.
Definition is_digit : ascii -> bool := between 48 57.

(** [str.lower] / [str.upper] on one ASCII letter; other characters are
    kept.  The source upper-cases issue kinds only, which are ASCII. *)
Definition lower (a : ascii) : ascii :=
  if is_upper a then ascii_of_N (code a + 32) else a.
Definition upper (a : ascii) : ascii :=
  if is_lower a then ascii_of_N (code a - 32) else a.

Definition newline : ascii := ascii_of_N 10.
Definition is_newline (a : ascii) : bool := (code a =? 10)%N.

(** [str.isspace] for code points below 256: TAB..CR, FS..US, space,
    NEL and NBSP.  This is also the class [\s] of a [str] pattern. *)
Definition is_space (a : ascii) : bool :=
  between 9 13 a || between 28 32 a || (code a =? 133)%N || (code a =? 160)%N.

(** The class [[a-zA-Z0-9_]]. *)
Definition is_word (a : ascii) : bool :=
  is_lower a || is_upper a || is_digit a || (code a =? 95)%N.

Fixpoint map (f : ascii -> ascii) (s : string) : string :=
  match s with
  | EmptyString => EmptyString
  | String a s' => String (f a) (map f s')
  end.

Definition to_upper : string -> string := map upper.

(** [s[:n]] *)
Fixpoint take (n : nat) (s : string) : string :=
  match n, s with
  | S n', String a s' => String a (take n' s')
  | _, _ => EmptyString
  end.

(** [content.split('\n')]: never empty, one more piece than line feeds. *)
Fixpoint split_lines (s : string) : list string :=
  match s with
  | EmptyString => [EmptyString]
  | String a s' =>
      if is_newline a then EmptyString :: split_lines s'
      else match split_lines s' with
           | l :: ls => String a l :: ls
           | [] => [String a EmptyString]
           end
  end.

Fixpoint lstrip (s : string) : string :=
  match s with
  | String a s' => if is_space a then lstrip s' else s
  | EmptyString => EmptyString
  end.

Definition rstrip (s : string) : string :=
  String.rev (lstrip (String.rev s)).

(** [line.strip()] *)
Definition strip (s : string) : string := rstrip (lstrip s).

(** ["c" * n] *)
Fixpoint repeat (a : ascii) (n : nat) : string :=
  match n with
  | O => EmptyString
  | S n' => String a (repeat a n')
  end.

End Text.

(** ** The fragment of Python's [re] used by the source

    A backtracking matcher in continuation-passing style, with Python's
    priorities: the left alternative first, a star as long as it can.  The
    continuation receives the rest of the text after the match and may
    refuse it, which makes the matcher backtrack. *)

Module Re.

Inductive regex : Type :=
| Eps
| Chr (c : ascii)          (* a literal, compared under IGNORECASE *)
| Dot                      (* [.]: anything but a line feed *)
| Space                    (* [\s] *)
| Word                     (* [[a-zA-Z0-9_]] *)
| Seq (r1 r2 : regex)
| Alt (r1 r2 : regex)
| Star (r : regex).

Definition Plus (r : regex) : regex := Seq r (Star r).

(** A literal string. *)
Fixpoint str (s : string) : regex :=
  match s with
  | EmptyString => Eps
  | String a s' => Seq (Chr a) (str s')
  end.

Definition any_of (rs : list regex) : regex :=
  match rs with
  | [] => Eps
  | r :: rs' => fold_left Alt rs' r
  end.

Definition chr_matches (c a : ascii) : bool :=
  bool_decide (Text.lower a = Text.lower c).

Definition one {A} (p : ascii -> bool) (s : string)
    (k : string -> option A) : option A :=
  match s with
  | String a s' => if p a then k s' else None
  | EmptyString => None
  end.

(** The loop of a star: one more round of [body] as long as a round
    consumes text, else the continuation.  A round that consumes nothing
    is refused, as Python stops a star on an empty round. *)
Fixpoint star_loop {A} (body : string -> (string -> option A) -> option A)
    (k : string -> option A) (fuel : nat) (s : string) : option A :=
  match fuel with
  | O => k s
  | S fuel' =>
      match body s (fun s' =>
               if (String.length s' <? String.length s)%nat
               then star_loop body k fuel' s' else None) with
      | Some x => Some x
      | None => k s
      end
  end.

Fixpoint exec {A} (r : regex) (s : string) (k : string -> option A)
    {struct r} : option A :=
  match r with
  | Eps => k s
  | Chr c => one (chr_matches c) s k
  | Dot => one (fun a => negb (Text.is_newline a)) s k
  | Space => one Text.is_space s k
  | Word => one Text.is_word s k
  | Seq r1 r2 => exec r1 s (fun s' => exec r2 s' k)
  | Alt r1 r2 =>
      match exec r1 s k with
      | Some x => Some x
      | None => exec r2 s k
      end
  | Star r1 => star_loop (exec r1) k (String.length s) s
  end.

(** The leftmost start at which the pattern (and the continuation)
    succeeds, as [re.search] scans. *)
Fixpoint scan {A} (r : regex) (s : string) (k : string -> option A)
    : option A :=
  match exec r s k with
  | Some x => Some x
  | None =>
      match s with
      | EmptyString => None
      | String _ s' => scan r s' k
      end
  end.

(** Truth value of [re.search(pattern, s, re.IGNORECASE)]. *)
Definition search (r : regex) (s : string) : bool :=
  bool_decide (is_Some (scan r s (fun _ => Some tt))).

(** The longest prefix made of characters of a class. *)
Fixpoint span (p : ascii -> bool) (s : string) : string :=
  match s with
  | String a s' => if p a then String a (span p s') else EmptyString
  | EmptyString => EmptyString
  end.

End Re.

(** ** Data model *)

(** An issue is a Python [dict] from field name to text. *)
Abbreviation Issue := (gmap string string).

(** The [dict] literal [{k1: v1, ...}] (the keys of each literal of the
    source are pairwise distinct). *)
Definition dict (kvs : list (string * string)) : Issue := list_to_map kvs.

(** The [report] dict of [generate_report], one field per key. *)
Record Report : Type := {
  test_timestamp : string;
  minecraft_directory : string;
  report_startup_successful : bool;   (* key ["startup_successful"] *)
  total_issues : nat;
  critical_issues : nat;
  warning_issues : nat;
  report_issues : list Issue          (* key ["issues"] *)
}.

(** The attributes of a [MinecraftTester] object.  [self.process] is [None]
    from [__init__] on and is never assigned again, so it has no field. *)
Record MinecraftTester : Type := {
  minecraft_dir : string;
  java_path : string;
  timeout : nat;
  log_file : string;
  issues : list Issue;
  startup_successful : bool
}.

(** What the run finds at [self.log_file]. *)
Inductive artifact : Type :=
| Absent                         (* [exists()] is false *)
| Inaccessible (err : string)    (* [exists()] itself raises, as it does
                                    for an error other than "not found" *)
| Unreadable (err : string)      (* [open]/[read] raises; [err] is [str(e)] *)
| Content (text : string).       (* what [f.read()] returns *)

(** The surroundings a run cannot change: the log artifact, what the
    [n]-th call of [datetime.now()] formats to, and whether the report
    file can be created. *)
Record Env : Type := {
  log_artifact : artifact;
  isoformat : nat -> string;
  strftime : nat -> string;
  dir_writable : bool
}.

(** The state a run threads: the object, the number of clock reads so far,
    the console, and the files written. *)
Record State : Type := {
  self : MinecraftTester;
  clock : nat;
  stdout : list string;
  files : list (string * Report)
}.

(** ** Exceptions and the state monad of a run *)

Inductive exn : Type :=
| KeyError (key : string)
| OSError (msg : string).

Inductive result (A : Type) : Type :=
| Ok (a : A)
| Raise (e : exn).
Arguments Ok {A} a.
Arguments Raise {A} e.

Definition M (A : Type) : Type := State -> result A * State.

Definition ret {A} (a : A) : M A := fun st => (Ok a, st).

Definition bind {A B} (m : M A) (f : A -> M B) : M B :=
  fun st =>
    match m st with
    | (Ok a, st') => f a st'
    | (Raise e, st') => (Raise e, st')
    end.

Definition raise {A} (e : exn) : M A := fun st => (Raise e, st).

(** [try: body / except Exception as e: handler e]; the state changes made
    before the exception stay. *)
Definition try_except {A} (body : M A) (handler : exn -> M A) : M A :=
  fun st =>
    match body st with
    | (Ok a, st') => (Ok a, st')
    | (Raise e, st') => handler e st'
    end.

Notation "x <- m ;; f" := (bind m (fun x => f))
  (at level 62, m at next level, right associativity).
Notation "m ;;; f" := (bind m (fun _ => f))
  (at level 62, right associativity).

Definition lift {A} (r : result A) : M A := fun st => (r, st).

Definition get_self : M MinecraftTester := fun st => (Ok (self st), st).

Definition print (line : string) : M unit := fun st =>
  (Ok tt, {| self := self st; clock := clock st;
             stdout := stdout st ++ [line]; files := files st |}).

Definition tick : M nat := fun st =>
  (Ok (clock st), {| self := self st; clock := S (clock st);
                     stdout := stdout st; files := files st |}).

Definition update_self (f : MinecraftTester -> MinecraftTester) : M unit :=
  fun st =>
    (Ok tt, {| self := f (self st); clock := clock st;
               stdout := stdout st; files := files st |}).

(** [self.issues.append(i)] *)
Definition append_issue (i : Issue) : M unit :=
  update_self (fun t =>
    {| minecraft_dir := minecraft_dir t; java_path := java_path t;
       timeout := timeout t; log_file := log_file t;
       issues := issues t ++ [i];
       startup_successful := startup_successful t |}).

(** [self.startup_successful = True] *)
Definition set_startup_successful : M unit :=
  update_self (fun t =>
    {| minecraft_dir := minecraft_dir t; java_path := java_path t;
       timeout := timeout t; log_file := log_file t;
       issues := issues t;
       startup_successful := true |}).

(** [for x in xs: body x] *)
Fixpoint for_each {A} (xs : list A) (body : A -> M unit) : M unit :=
  match xs with
  | [] => ret tt
  | x :: xs' => body x ;;; for_each xs' body
  end.

(** [d[key]] *)
Definition getitem (d : Issue) (key : string) : result string :=
  match d !! key with
  | Some v => Ok v
  | None => Raise (KeyError key)
  end.

(** [[i for i in l if i[key] == v]] *)
Fixpoint select (key v : string) (l : list Issue) : result (list Issue) :=
  match l with
  | [] => Ok []
  | i :: l' =>
      match getitem i key with
      | Raise e => Raise e
      | Ok x =>
          match select key v l' with
          | Raise e => Raise e
          | Ok rest => Ok (if bool_decide (x = v) then i :: rest else rest)
          end
      end
  end.

(** ** The signature tables of [__init__] *)

Import Re.

(** [a.*b] *)
Definition gap (a b : string) : regex := Seq (str a) (Seq (Star Dot) (str b)).

(** [self.error_patterns], in the insertion order a [dict] iterates in. *)
Definition error_patterns : list (string * regex) :=
  [ ("mod_loading_error",
      any_of [str "Error loading mod"; str "Failed to load mod";
              str "ModLoadingException"]);
    ("dependency_missing",
      any_of [str "Missing required dependency"; str "Unsatisfied dependency"]);
    ("version_conflict",
      any_of [str "Version conflict"; str "Incompatible mod version";
              str "requires version"]);
    ("file_not_found",
      any_of [str "FileNotFoundException"; str "Could not find file";
              str "Missing file"]);
    ("mixin_error",
      any_of [str "Mixin apply failed"; str "MixinException";
              str "Mixin conflict"]);
    ("memory_error",
      any_of [str "OutOfMemoryError"; str "Java heap space";
              str "GC overhead limit"]);
    ("duplicate_mod",
      any_of [str "Duplicate mod"; str "Found duplicate";
              str "Multiple mods with same"]);
    ("config_error",
      any_of [str "Configuration error"; str "Invalid config";
              str "Config parse error"]);
    ("java_error",
      any_of [str "UnsupportedClassVersionError"; str "Java version";
              str "JVM crash"]);
    ("forge_error",
      any_of [str "FML"; gap "Forge" "error"; gap "ModLauncher" "error"]) ].

(** [self.success_patterns] *)
Definition success_patterns : list regex :=
  [ gap "Minecraft main menu" "displayed";
    gap "Successfully loaded" "main menu";
    str "Client successfully started";
    str "Reached main menu" ].

(** [Path(a) / b], as text, in the POSIX spelling and without the
    normalisation [pathlib] applies to [a]; no statement below depends on
    how a path is spelled. *)
Definition path_join (a b : string) : string := a +:+ "/" +:+ b.

(** [MinecraftTester.__init__] *)
Definition init (dir java : string) (tmo : nat) : MinecraftTester :=
  {| minecraft_dir := dir;
     java_path := java;
     timeout := tmo;
     log_file := path_join (path_join dir "logs") "latest.log";
     issues := [];
     startup_successful := false |}.

(** ** The classifier *)

(** [re.search(r'mod[:\s]+([a-zA-Z0-9_]+)', line, re.IGNORECASE)] and its
    [group(1)].  The group closes the pattern and is greedy, so it is the
    longest run of word characters after the separators, and the match is
    refused where that run is empty. *)
Definition mod_search (line : string) : option string :=
  scan (Seq (str "mod") (Plus (Alt (Chr ":") Space))) line
    (fun rest =>
       match span Text.is_word rest with
       | EmptyString => None
       | w => Some w
       end).

Definition critical_kinds : list string :=
  ["mod_loading_error"; "memory_error"; "java_error"].

Definition severity_of (error_type : string) : string :=
  if bool_decide (error_type ∈ critical_kinds) then "critical" else "warning".

(** The body of the inner loop of [analyze_log_content]: one signature
    tried on one line. *)
Definition try_signature (env : Env) (line : string)
    (sig : string * regex) : M unit :=
  let '(error_type, pattern) := sig in
  if search pattern line then
    let mod_name := default "unknown" (mod_search line) in
    let severity := severity_of error_type in
    n <- tick ;;
    append_issue (dict [ ("type", error_type);
                         ("message", Text.strip line);
                         ("mod", mod_name);
                         ("severity", severity);
                         ("timestamp", isoformat env n) ])
  else ret tt.

(** The body of the outer loop of [analyze_log_content]: every signature
    is tried on the line, in table order. *)
Definition scan_line (env : Env) (line : string) : M unit :=
  for_each error_patterns (try_signature env line).

(** [MinecraftTester.analyze_log_content] *)
Definition analyze_log_content (env : Env) (content : string) : M unit :=
  let lines := Text.split_lines content in
  for_each lines (scan_line env).

(** The success loop of [monitor_logs]; the first pattern found returns. *)
Fixpoint check_success (patterns : list regex) (content : string) : M unit :=
  match patterns with
  | [] => ret tt
  | pattern :: rest =>
      if search pattern content then
        set_startup_successful ;;;
        print "✓ Log shows successful main menu load!"
      else check_success rest content
  end.

(** [self.log_file.exists()] *)
Definition log_exists (env : Env) : M bool :=
  match log_artifact env with
  | Absent => ret false
  | Inaccessible err => raise (OSError err)
  | Unreadable _ | Content _ => ret true
  end.

(** [open(self.log_file, 'r', errors='ignore')] followed by [f.read()]. *)
Definition read_log (env : Env) : M string :=
  match log_artifact env with
  | Content text => ret text
  | Unreadable err | Inaccessible err => raise (OSError err)
  | Absent => raise (OSError "No such file or directory")
  end.

Definition exn_text (e : exn) : string :=
  match e with
  | KeyError key => "'" +:+ key +:+ "'"
  | OSError msg => msg
  end.

(** [MinecraftTester.monitor_logs].  The test [exists()] stands before the
    [try]: what it raises leaves the method. *)
Definition monitor_logs (env : Env) : M unit :=
  print "Reading log file for startup issues..." ;;;
  t <- get_self ;;
  found <- log_exists env ;;
  if negb found then
    append_issue (dict [ ("type", "file_not_found");
                         ("message", "Log file not found: " +:+ log_file t);
                         ("severity", "critical") ])
  else
    try_except
      (content <- read_log env ;;
       analyze_log_content env content ;;;
       check_success success_patterns content)
      (fun e =>
         append_issue (dict [ ("type", "log_read_error");
                              ("message",
                               "Error reading log file: " +:+ exn_text e);
                              ("severity", "critical") ])).


(** ** The reporter *)

Definition nl : string := String Text.newline EmptyString.

(** The line printed for one issue in either block. *)
Definition issue_line (issue : Issue) : result string :=
  match getitem issue "type" with
  | Raise e => Raise e
  | Ok ty =>
      match getitem issue "message" with
      | Raise e => Raise e
      | Ok msg =>
          Ok ("  • " +:+ Text.to_upper ty +:+ ": " +:+ Text.take 100 msg
                +:+ "...")
      end
  end.

(** The body of the loop over [critical]. *)
Definition print_critical (issue : Issue) : M unit :=
  line <- lift (issue_line issue) ;;
  print line ;;;
  match issue !! "mod" with
  | Some m =>
      if bool_decide (m ≠ "unknown") then print ("    Related mod: " +:+ m)
      else ret tt
  | None => ret tt
  end.

(** The body of the loop over [warnings[:5]]. *)
Definition print_warning (issue : Issue) : M unit :=
  line <- lift (issue_line issue) ;;
  print line.

(** The [if warnings:] block of [generate_report]. *)
Definition print_warnings (warnings : list Issue) : M unit :=
  match warnings with
  | [] => ret tt
  | _ =>
      print (nl +:+ "WARNINGS (may cause issues):") ;;;
      for_each (take 5 warnings) print_warning ;;;
      if (5 <? length warnings)%nat then
        print ("  ... and " +:+ pretty (length warnings - 5)%nat
                 +:+ " more warnings")
      else ret tt
  end.

(** The [if critical:] block of [generate_report]. *)
Definition print_criticals (critical : list Issue) : M unit :=
  match critical with
  | [] => ret tt
  | _ =>
      print "CRITICAL ISSUES (prevent startup):" ;;;
      for_each critical print_critical
  end.

(** [open(report_file, 'w')] and [json.dump(report, f, indent=2)] *)
Definition save_report (env : Env) (name : string) (report : Report)
    : M unit :=
  fun st =>
    if dir_writable env then
      (Ok tt, {| self := self st; clock := clock st; stdout := stdout st;
                 files := files st ++ [(name, report)] |})
    else (Raise (OSError ("Permission denied: " +:+ name)), st).

(** [MinecraftTester.generate_report] *)
Definition generate_report (env : Env) : M Report :=
  t <- get_self ;;
  n <- tick ;;
  crit <- lift (select "severity" "critical" (issues t)) ;;
  warn <- lift (select "severity" "warning" (issues t)) ;;
  let report :=
    {| test_timestamp := isoformat env n;
       minecraft_directory := minecraft_dir t;
       report_startup_successful := startup_successful t;
       total_issues := length (issues t);
       critical_issues := length crit;
       warning_issues := length warn;
       report_issues := issues t |} in
  n' <- tick ;;
  let report_file :=
    path_join (minecraft_dir t)
      ("startup_test_report_" +:+ strftime env n' +:+ ".json") in
  save_report env report_file report ;;;
  print (nl +:+ Text.repeat "=" 60) ;;;
  print "MINECRAFT MODPACK STARTUP TEST REPORT" ;;;
  print (Text.repeat "=" 60) ;;;
  print ("Test completed: " +:+ test_timestamp report) ;;;
  print ("Startup successful: "
           +:+ (if startup_successful t then "✓ YES" else "✗ NO")) ;;;
  print ("Total issues found: " +:+ pretty (total_issues report)) ;;;
  print ("Critical issues: " +:+ pretty (critical_issues report)) ;;;
  print ("Warnings: " +:+ pretty (warning_issues report)) ;;;
  match issues t with
  | [] => ret tt
  | _ =>
      print (nl +:+ "ISSUES DETECTED:") ;;;
      print (Text.repeat "-" 40) ;;;
      critical <- lift (select "severity" "critical" (issues t)) ;;
      warnings <- lift (select "severity" "warning" (issues t)) ;;
      print_criticals critical ;;;
      print_warnings warnings
  end ;;;
  print (nl +:+ "Full report saved to: " +:+ report_file) ;;;
  ret report.

(** [MinecraftTester.launch_minecraft] *)
Definition launch_minecraft : M bool :=
  print "Analyzing existing log file..." ;;;
  ret true.

(** [MinecraftTester.terminate_minecraft]: [self.process] is [None], the
    guard fails and nothing happens. *)
Definition terminate_minecraft : M unit := ret tt.

(** [try: body / finally: final] *)
Definition try_finally {A} (body : M A) (final : M unit) : M A :=
  fun st =>
    match body st with
    | (r, st') =>
        match final st' with
        | (Ok _, st'') => (r, st'')
        | (Raise e, st'') => (Raise e, st'')
        end
    end.

(** [threading.Thread(target=...)], [start()] and [join()] at once: the
    target runs to its end before the caller goes on.  An exception that
    leaves the target ends the thread, which reports it on the standard
    error stream; [join] returns all the same. *)
Definition start_and_join (target : M unit) : M unit :=
  try_except target (fun _ => ret tt).

(** [MinecraftTester.run_test].  The body of the [try] either returns a
    report ([Some]) or falls through ([None]).  An interrupt from the
    keyboard, which may arrive at any moment, has no place in this model. *)
Definition run_test (env : Env) : M Report :=
  print "Starting Minecraft Modpack Startup Test" ;;;
  print (Text.repeat "=" 50) ;;;
  early <- try_finally
             (launched <- launch_minecraft ;;
              if negb launched then
                report <- generate_report env ;; ret (Some report)
              else
                start_and_join (monitor_logs env) ;;; ret None)
             terminate_minecraft ;;
  match early with
  | Some report => ret report
  | None => generate_report env
  end.

(** A run of a fresh tester. *)
Definition fresh (dir : string) : State :=
  {| self := init dir "java" 300; clock := 0; stdout := []; files := [] |}.

(** ** The verdict of [main] *)

Definition success_message : string :=
  nl +:+ "🎉 SUCCESS: Your modpack appears to start up correctly!".

Definition critical_message (n : nat) : string :=
  nl +:+ "⚠️  CRITICAL: " +:+ pretty n +:+ " issues prevent startup".

Definition recommend_line : string :=
  "Recommend fixing critical issues before playing".

Definition worked_message (n : nat) : string :=
  nl +:+ "⚠️  WARNING: Startup worked but " +:+ pretty n
    +:+ " issues detected".

(** The summary recommendation of [main]. *)
Definition recommend (report : Report) : M unit :=
  if report_startup_successful report && (critical_issues report =? 0) then
    print success_message
  else if 0 <? critical_issues report then
    print (critical_message (critical_issues report)) ;;;
    print recommend_line
  else
    print (worked_message (total_issues report)).

(** [tester = MinecraftTester(minecraft_dir, java_path, timeout)] *)
Definition construct (dir java : string) (tmo : nat) : M unit :=
  update_self (fun _ => init dir java tmo).

(** The [try] block of [main] once the configuration is read, with its
    [except Exception] handler.  The timeout plays no part in the run. *)
Definition main_try (env : Env) (dir java : string) (tmo : nat) : M unit :=
  try_except
    (construct dir java tmo ;;;
     report <- run_test env ;;
     recommend report)
    (fun e => print ("Error running test: " +:+ exn_text e)).

(** * Vocabulary of the statements *)

(** ** Patterns *)

(** The texts a pattern accepts as a whole.  The rounds of a star are
    taken non-empty; the language is the same. *)
Inductive accepts : regex -> string -> Prop :=
| accepts_eps : accepts Eps ""
| accepts_chr c a : chr_matches c a = true -> accepts (Chr c) (String a "")
| accepts_dot a : Text.is_newline a = false -> accepts Dot (String a "")
| accepts_space a : Text.is_space a = true -> accepts Space (String a "")
| accepts_word a : Text.is_word a = true -> accepts Word (String a "")
| accepts_seq r1 r2 s1 s2 :
    accepts r1 s1 -> accepts r2 s2 -> accepts (Seq r1 r2) (s1 +:+ s2)
| accepts_alt_l r1 r2 s : accepts r1 s -> accepts (Alt r1 r2) s
| accepts_alt_r r1 r2 s : accepts r2 s -> accepts (Alt r1 r2) s
| accepts_star_stop r : accepts (Star r) ""
| accepts_star_round r s1 s2 :
    s1 <> "" -> accepts r s1 -> accepts (Star r) s2 ->
    accepts (Star r) (s1 +:+ s2).

(** Equal up to the case of ASCII letters. *)
Definition same_folded (s p : string) : Prop :=
  Text.map Text.lower s = Text.map Text.lower p.

(** [p] occurs in [s], up to case. *)
Definition occurs_in (p s : string) : Prop :=
  exists pre mid post, s = pre +:+ mid +:+ post /\ same_folded mid p.

(** ** States *)

(** The state after [new] issues were appended, each with one clock read. *)
Definition add_issues (st : State) (new : list Issue) : State :=
  {| self :=
       {| minecraft_dir := minecraft_dir (self st);
          java_path := java_path (self st);
          timeout := timeout (self st);
          log_file := log_file (self st);
          issues := issues (self st) ++ new;
          startup_successful := startup_successful (self st) |};
     clock := clock st + length new;
     stdout := stdout st;
     files := files st |}.

(** The state after [lines] were printed. *)
Definition emit (st : State) (lines : list string) : State :=
  {| self := self st; clock := clock st;
     stdout := stdout st ++ lines; files := files st |}.

(** ** The classifier as a function of the text *)

(** The record appended for signature [error_type] on [line] at clock
    read [n]. *)
Definition signature_issue (env : Env) (line error_type : string) (n : nat)
    : Issue :=
  dict [ ("type", error_type);
         ("message", Text.strip line);
         ("mod", default "unknown" (mod_search line));
         ("severity", severity_of error_type);
         ("timestamp", isoformat env n) ].

(** The signatures of a table that a line matches, in table order. *)
Definition matching (sigs : list (string * regex)) (line : string)
    : list (string * regex) :=
  filter (fun sig => search sig.2 line = true) sigs.

(** The records one line gives, the first of them at clock read [n]. *)
Fixpoint stamp (env : Env) (line : string) (kinds : list string) (n : nat)
    : list Issue :=
  match kinds with
  | [] => []
  | k :: kinds' => signature_issue env line k n :: stamp env line kinds' (S n)
  end.

(** The records of one line, and of the lines of a text. *)
Definition line_issues (env : Env) (line : string) (n : nat) : list Issue :=
  stamp env line (matching error_patterns line).*1 n.

Fixpoint content_issues (env : Env) (lines : list string) (n : nat)
    : list Issue :=
  match lines with
  | [] => []
  | line :: rest =>
      line_issues env line n
        ++ content_issues env rest (n + length (line_issues env line n))
  end.

(** ** Issues *)

(** The two records [monitor_logs] builds itself. *)
Definition missing_issue (path : string) : Issue :=
  dict [ ("type", "file_not_found");
         ("message", "Log file not found: " +:+ path);
         ("severity", "critical") ].

Definition read_error_issue (e : exn) : Issue :=
  dict [ ("type", "log_read_error");
         ("message", "Error reading log file: " +:+ exn_text e);
         ("severity", "critical") ].

(** The severity is one of the two the report counts. *)
Definition severity_ok (i : Issue) : Prop :=
  i !! "severity" = Some "critical" ∨ i !! "severity" = Some "warning".

(** What [generate_report] reads of every issue. *)
Definition well_formed (i : Issue) : Prop :=
  is_Some (i !! "type") ∧ is_Some (i !! "message") ∧ severity_ok i.

(** ** The console *)

(** A computation that only prints [lines], and returns [a]. *)
Definition emits {A} (m : M A) (a : A) (lines : list string) : Prop :=
  ∀ st, m st = (Ok a, emit st lines).

Definition prints {A} (m : M A) (a : A) : Prop := ∃ lines, emits m a lines.

(** The two fixed lines of the warnings block. *)
Definition warnings_header : string := nl +:+ "WARNINGS (may cause issues):".

Definition more_warnings (n : nat) : string :=
  "  ... and " +:+ pretty n +:+ " more warnings".

(** What the [if warnings:] block prints, given the entry lines. *)
Definition warnings_block (ws : list Issue) (entries : list string)
    : list string :=
  match ws with
  | [] => []
  | _ => warnings_header :: entries
           ++ (if 5 <? length ws then [more_warnings (length ws - 5)] else [])
  end.

(** The report [generate_report] builds in a state, and the file it names. *)
Definition report_of (env : Env) (st : State) : Report :=
  {| test_timestamp := isoformat env (clock st);
     minecraft_directory := minecraft_dir (self st);
     report_startup_successful := startup_successful (self st);
     total_issues := length (issues (self st));
     critical_issues :=
       length (filter (fun i : Issue => i !! "severity" = Some "critical")
                 (issues (self st)));
     warning_issues :=
       length (filter (fun i : Issue => i !! "severity" = Some "warning")
                 (issues (self st)));
     report_issues := issues (self st) |}.

(** The name of the file [generate_report] writes in a state. *)
Definition report_file_of (env : Env) (st : State) : string :=
  path_join (minecraft_dir (self st))
    ("startup_test_report_" +:+ strftime env (S (clock st)) +:+ ".json").

(** The lines of the summary down to the totals. *)
Definition summary_head (env : Env) (st : State) : list string :=
  [ nl +:+ Text.repeat "=" 60;
    "MINECRAFT MODPACK STARTUP TEST REPORT";
    Text.repeat "=" 60;
    "Test completed: " +:+ test_timestamp (report_of env st);
    "Startup successful: "
      +:+ (if startup_successful (self st) then "✓ YES" else "✗ NO");
    "Total issues found: " +:+ pretty (total_issues (report_of env st));
    "Critical issues: " +:+ pretty (critical_issues (report_of env st));
    "Warnings: " +:+ pretty (warning_issues (report_of env st)) ].

(** The last line of the summary. *)
Definition saved_line (env : Env) (st : State) : string :=
  nl +:+ "Full report saved to: " +:+ report_file_of env st.

(** The issues a computation appends to [self.issues] from a state. *)
Definition appended {A} (m : M A) (st : State) : list Issue :=
  drop (length (issues (self st))) (issues (self (m st).2)).

(** A line matches the signature of kind [k]. *)
Definition matches (k line : string) : Prop :=
  ∃ p, (k, p) ∈ error_patterns ∧ search p line = true.

(** What [run_test] prints before [monitor_logs] starts. *)
Definition banner : list string :=
  [ "Starting Minecraft Modpack Startup Test";
    Text.repeat "=" 50;
    "Analyzing existing log file..." ].

(** ** Examples *)

(** Example surroundings. *)
Definition example_env (a : artifact) (writable : bool) : Env :=
  {| log_artifact := a;
     isoformat := fun n => "2024-01-01T00:00:0" +:+ pretty n;
     strftime := fun n => "20240101_00000" +:+ pretty n;
     dir_writable := writable |}.

(** Two issues agree on every field but ["timestamp"]. *)
Definition same_but_timestamp (i j : Issue) : Prop :=
  ∀ field, field ≠ "timestamp" → i !! field = j !! field.

(** The keys of the two kinds of record. *)
Definition synthetic_fields : gset string :=
  {[ "type"; "message"; "severity" ]}.

Definition signature_fields : gset string :=
  {[ "type"; "message"; "mod"; "severity"; "timestamp" ]}.

(** A log that reaches the main menu after a mod failed to load. *)
Definition example_log : string :=
  "[main/ERROR]: Failed to load mod: jei" +:+ nl +:+
  "[Render thread/INFO]: Reached main menu".

(** The same surroundings with another log artifact. *)
Definition with_artifact (env : Env) (a : artifact) : Env :=
  {| log_artifact := a; isoformat := isoformat env;
     strftime := strftime env; dir_writable := dir_writable env |}.

(** A log with one line of the [file_not_found] signature. *)
Definition example_missing_file_log : string :=
  "[main/INFO]: Loading 3 mods" +:+ nl +:+
  "java.io.FileNotFoundException: config/jei.toml" +:+ nl +:+
  "[main/INFO]: Done".

(** A log with seven warnings and one critical issue. *)
Definition example_warnings_log : string :=
  "Missing file a.toml" +:+ nl +:+ "Missing file b.toml" +:+ nl +:+
  "Missing file c.toml" +:+ nl +:+ "Missing file d.toml" +:+ nl +:+
  "Missing file e.toml" +:+ nl +:+ "Missing file f.toml" +:+ nl +:+
  "Duplicate mod jei" +:+ nl +:+ "java.lang.OutOfMemoryError".

(** ** Further vocabulary *)

(** The state after [i] was appended without a clock read. *)
Definition push (st : State) (i : Issue) : State :=
  {| self :=
       {| minecraft_dir := minecraft_dir (self st);
          java_path := java_path (self st);
          timeout := timeout (self st);
          log_file := log_file (self st);
          issues := issues (self st) ++ [i];
          startup_successful := startup_successful (self st) |};
     clock := clock st;
     stdout := stdout st;
     files := files st |}.

(** The state after the success flag was set. *)
Definition started (st : State) : State :=
  {| self :=
       {| minecraft_dir := minecraft_dir (self st);
          java_path := java_path (self st);
          timeout := timeout (self st);
          log_file := log_file (self st);
          issues := issues (self st);
          startup_successful := true |};
     clock := clock st;
     stdout := stdout st;
     files := files st |}.

Definition reading_line : string := "Reading log file for startup issues...".

Definition success_line : string := "✓ Log shows successful main menu load!".

(** Some success pattern is found in the text. *)
Definition success_found (text : string) : bool :=
  existsb (fun p => search p text) success_patterns.

(** Every character of a text is in a class. *)
Fixpoint every (p : ascii -> bool) (s : string) : bool :=
  match s with
  | EmptyString => true
  | String a s' => p a && every p s'
  end.

(** The kinds a line matches, as [(type, message)] pairs of its issues. *)
Definition line_summary (line : string) : list (option string * option string) :=
  (fun k => (Some k, Some (Text.strip line)))
    <$> (matching error_patterns line).*1.

(** The separators [[:\s]] of the mod pattern, as a pattern and as a
    class. *)
Definition sep_class : regex := Alt (Chr ":") Space.

Definition is_sep (a : ascii) : bool :=
  chr_matches ":" a || Text.is_space a.

(** [m] is a name the mod pattern can capture in [line]: the word ["mod"]
    in any case, one or more separators, then [m], a run of word
    characters that the next character does not continue. *)
Definition names_mod (line m : string) : Prop :=
  ∃ pre mo seps rest,
    line = pre +:+ mo +:+ seps +:+ m +:+ rest
    ∧ same_folded mo "mod"
    ∧ seps ≠ "" ∧ every is_sep seps = true
    ∧ m ≠ "" ∧ every Text.is_word m = true
    ∧ ∀ a r, rest = String a r → Text.is_word a = false.

(** No white space at either end. *)
Definition trimmed (s : string) : Prop :=
  (∀ a t, s = String a t → Text.is_space a = false)
  ∧ (∀ a t, String.rev s = String a t → Text.is_space a = false).

(** The line of a critical issue's mod, when it has one. *)
Definition related_mod_line (i : Issue) : list string :=
  match i !! "mod" with
  | Some m =>
      if bool_decide (m ≠ "unknown") then ["    Related mod: " +:+ m] else []
  | None => []
  end.

Definition critical_header : string := "CRITICAL ISSUES (prevent startup):".

(** The critical and the warning issues [generate_report] selects. *)
Definition critical_of (st : State) : list Issue :=
  filter (fun i : Issue => i !! "severity" = Some "critical")
    (issues (self st)).

Definition warnings_of (st : State) : list Issue :=
  filter (fun i : Issue => i !! "severity" = Some "warning")
    (issues (self st)).

(** Some line of the text matches a signature of a critical kind. *)
Definition has_critical_line (text : string) : Prop :=
  ∃ line k, line ∈ Text.split_lines text ∧ k ∈ critical_kinds
            ∧ matches k line.

(** The state in which [main] starts the run: a new tester. *)
Definition constructed (st : State) (dir java : string) (tmo : nat) : State :=
  {| self := init dir java tmo; clock := clock st;
     stdout := stdout st; files := files st |}.

(** The state [monitor_logs] leaves in the run [main] starts. *)
Definition monitored (env : Env) (st : State) (dir java : string) (tmo : nat)
    : State :=
  snd (monitor_logs env (emit (constructed st dir java tmo) banner)).

(** The phrases of the signatures that are alternatives of literals, as
    [self.error_patterns] lists them. *)
Definition phrases : list (string * list string) :=
  [ ("mod_loading_error",
      ["Error loading mod"; "Failed to load mod"; "ModLoadingException"]);
    ("dependency_missing",
      ["Missing required dependency"; "Unsatisfied dependency"]);
    ("version_conflict",
      ["Version conflict"; "Incompatible mod version"; "requires version"]);
    ("file_not_found",
      ["FileNotFoundException"; "Could not find file"; "Missing file"]);
    ("mixin_error",
      ["Mixin apply failed"; "MixinException"; "Mixin conflict"]);
    ("memory_error",
      ["OutOfMemoryError"; "Java heap space"; "GC overhead limit"]);
    ("duplicate_mod",
      ["Duplicate mod"; "Found duplicate"; "Multiple mods with same"]);
    ("config_error",
      ["Configuration error"; "Invalid config"; "Config parse error"]);
    ("java_error",
      ["UnsupportedClassVersionError"; "Java version"; "JVM crash"]) ].

(** [a] and later [b] occur in [s], up to case, with no line feed from
    the end of [a] to the start of [b]. *)
Definition spans (a b s : string) : Prop :=
  ∃ pre sa mid sb post,
    s = pre +:+ sa +:+ mid +:+ sb +:+ post
    ∧ same_folded sa a ∧ same_folded sb b
    ∧ every (fun c => negb (Text.is_newline c)) mid = true.

(** A log with six critical issues, two of them naming a mod. *)
Definition example_critical_log : string :=
  "Failed to load mod: jei" +:+ nl +:+ "java.lang.OutOfMemoryError" +:+ nl +:+
  "JVM crash" +:+ nl +:+ "Error loading mod create" +:+ nl +:+
  "Java heap space" +:+ nl +:+ "GC overhead limit exceeded".

(** * Properties *)

(** ** The model on concrete inputs *)

Example split_lines_trailing :
  Text.split_lines ("a" +:+ nl +:+ "b" +:+ nl) = ["a"; "b"; ""].
Proof. reflexivity. Qed.

Example split_lines_empty : Text.split_lines "" = [""].
Proof. reflexivity. Qed.

Example strip_both_ends : Text.strip "   [main] x y  " = "[main] x y".
Proof. reflexivity. Qed.

Example forge_error_any_case :
  (matching error_patterns "A FORGE mod had an Error").*1 = ["forge_error"].
Proof. vm_compute. reflexivity. Qed.

Example gap_stops_at_line_feed :
  search (gap "Forge" "error") ("forge" +:+ nl +:+ "error") = false.
Proof. vm_compute. reflexivity. Qed.

Example three_signatures_one_line :
  (matching error_patterns "Failed to load mod: FML Java heap space").*1
  = ["mod_loading_error"; "memory_error"; "forge_error"].
Proof. vm_compute. reflexivity. Qed.

Example mod_search_found :
  mod_search "Failed to load Mod:  jei_x-1" = Some "jei_x".
Proof. vm_compute. reflexivity. Qed.

Example mod_search_second_start : mod_search "modx mod: a" = Some "a".
Proof. vm_compute. reflexivity. Qed.

Example mod_search_none : mod_search "Error loading mod" = None.
Proof. vm_compute. reflexivity. Qed.

Example example_log_console :
  stdout (snd (run_test (example_env (Content example_log) true)
                 (fresh "/mc")))
  = [ "Starting Minecraft Modpack Startup Test";
      "==================================================";
      "Analyzing existing log file...";
      "Reading log file for startup issues...";
      "✓ Log shows successful main menu load!";
      nl +:+ "============================================================";
      "MINECRAFT MODPACK STARTUP TEST REPORT";
      "============================================================";
      "Test completed: 2024-01-01T00:00:01";
      "Startup successful: ✓ YES";
      "Total issues found: 1";
      "Critical issues: 1";
      "Warnings: 0";
      nl +:+ "ISSUES DETECTED:";
      "----------------------------------------";
      "CRITICAL ISSUES (prevent startup):";
      "  • MOD_LOADING_ERROR: [main/ERROR]: Failed to load mod: jei...";
      "    Related mod: jei";
      nl +:+ "Full report saved to: /mc/startup_test_report_20240101_000002.json" ].
Proof. vm_compute. reflexivity. Qed.

(** ** What a pattern accepts *)

Lemma app_cons a s t : String a s +:+ t = String a (s +:+ t).
Proof. reflexivity. Qed.

Lemma app_empty_l s : "" +:+ s = s.
Proof. reflexivity. Qed.

Lemma app_empty_r s : s +:+ "" = s.
Proof. induction s as [|a s IH]; [done|]. by rewrite app_cons, IH. Qed.

Lemma app_assoc_string s t u : (s +:+ t) +:+ u = s +:+ (t +:+ u).
Proof. induction s as [|a s IH]; [done|]. by rewrite !app_cons, IH. Qed.

Lemma length_app_string s t :
  String.length (s +:+ t) = String.length s + String.length t.
Proof. induction s as [|a s IH]; [done|]. rewrite app_cons. simpl. by rewrite IH. Qed.

Section Matcher.
Context {A : Type}.
Implicit Types (k : string -> option A) (x : A).

Lemma one_sound p s k x :
  one p s k = Some x -> exists a s', s = String a s' /\ p a = true /\ k s' = Some x.
Proof.
  destruct s as [|a s']; [done|]. simpl. destruct (p a) eqn:E; [|done]. eauto.
Qed.

Lemma star_loop_sound r (body : string -> (string -> option A) -> option A) :
  (forall s k x, body s k = Some x ->
     exists s1 s2, s = s1 +:+ s2 /\ accepts r s1 /\ k s2 = Some x) ->
  forall fuel s k x, star_loop body k fuel s = Some x ->
    exists s1 s2, s = s1 +:+ s2 /\ accepts (Star r) s1 /\ k s2 = Some x.
Proof.
  intros Hbody fuel. induction fuel as [|fuel IH]; intros s k x; simpl.
  - intros Hk. exists "", s. repeat split; [constructor | done].
  - destruct (body s _) as [y|] eqn:E.
    + intros [= ->]. apply Hbody in E as (t1 & t2 & -> & Hacc & Hk).
      destruct (String.length t2 <? String.length (t1 +:+ t2))%nat eqn:L;
        [|done].
      apply IH in Hk as (u1 & u2 & -> & Hstar & Hk).
      exists (t1 +:+ u1), u2. rewrite app_assoc_string.
      repeat split; [|done]. apply accepts_star_round; [|done..].
      intros ->. apply Nat.ltb_lt in L. rewrite app_empty_l in L. lia.
    + intros Hk. exists "", s. repeat split; [constructor | done].
Qed.

Lemma exec_sound r : forall s k x,
  exec r s k = Some x ->
  exists s1 s2, s = s1 +:+ s2 /\ accepts r s1 /\ k s2 = Some x.
Proof.
  induction r as [|c| | | |r1 IH1 r2 IH2|r1 IH1 r2 IH2|r1 IH1];
    intros s k x; cbn [exec].
  - intros Hk. exists "", s. repeat split; [constructor | done].
  - intros (a & s' & -> & Hp & Hk)%one_sound.
    exists (String a ""), s'. repeat split; [by constructor | done].
  - intros (a & s' & -> & Hp & Hk)%one_sound.
    exists (String a ""), s'. repeat split; [|done].
    constructor. by destruct (Text.is_newline a).
  - intros (a & s' & -> & Hp & Hk)%one_sound.
    exists (String a ""), s'. repeat split; [by constructor | done].
  - intros (a & s' & -> & Hp & Hk)%one_sound.
    exists (String a ""), s'. repeat split; [by constructor | done].
  - intros (t1 & t2 & -> & H1 & (u1 & u2 & -> & H2 & Hk)%IH2)%IH1.
    exists (t1 +:+ u1), u2. rewrite app_assoc_string.
    repeat split; [by constructor | done].
  - destruct (exec r1 s k) as [y|] eqn:E.
    + intros [= ->]. apply IH1 in E as (s1 & s2 & -> & ? & ?).
      exists s1, s2. repeat split; [by apply accepts_alt_l | done].
    + intros (s1 & s2 & -> & ? & ?)%IH2.
      exists s1, s2. repeat split; [by apply accepts_alt_r | done].
  - apply (star_loop_sound r1 (exec r1) IH1).
Qed.

End Matcher.

Section Complete.
Context {A : Type}.
Implicit Types (k : string -> option A).

Lemma star_loop_complete r (body : string -> (string -> option A) -> option A) :
  (forall s1, accepts r s1 ->
     forall k s2, is_Some (k s2) -> is_Some (body (s1 +:+ s2) k)) ->
  forall s1, accepts (Star r) s1 ->
    forall k s2 fuel, String.length (s1 +:+ s2) <= fuel ->
      is_Some (k s2) -> is_Some (star_loop body k fuel (s1 +:+ s2)).
Proof.
  intros Hbody s1 Hacc. remember (Star r) as r' eqn:Er.
  induction Hacc as [| | | | | | | |r0|r0 t1 t2 Hne Hround _ Hrest IH];
    try discriminate; injection Er as ->; intros k s2 fuel Hfuel Hk.
  - rewrite app_empty_l. destruct fuel as [|fuel]; simpl; [done|].
    by destruct (body s2 _).
  - destruct fuel as [|fuel].
    { rewrite !length_app_string in Hfuel. destruct t1; [done|].
      simpl in Hfuel. lia. }
    simpl.
    match goal with
    | |- is_Some match body _ ?k' with _ => _ end =>
        destruct (Hbody t1 Hround k' (t2 +:+ s2)) as [y Hy]
    end.
    + rewrite (proj2 (Nat.ltb_lt _ _)).
      * apply IH; [done| |done].
        rewrite !length_app_string in *. destruct t1; [done|].
        simpl in Hfuel. lia.
      * rewrite !length_app_string. destruct t1; [done|]. simpl. lia.
    + rewrite <- app_assoc_string in Hy. by rewrite Hy.
Qed.

Lemma exec_complete r : forall s1, accepts r s1 ->
  forall k s2, is_Some (k s2) -> is_Some (exec r (s1 +:+ s2) k).
Proof.
  induction r as [|c| | | |r1 IH1 r2 IH2|r1 IH1 r2 IH2|r1 IH1];
    intros s1 Hacc k s2 Hk; cbn [exec].
  - inversion Hacc; subst. by rewrite app_empty_l.
  - inversion Hacc as [|? a Hc| | | | | | | |]; subst.
    rewrite app_cons, app_empty_l. simpl. by rewrite Hc.
  - inversion Hacc as [| |a Hc| | | | | | |]; subst.
    rewrite app_cons, app_empty_l. simpl. by rewrite Hc.
  - inversion Hacc as [| | |a Hc| | | | | |]; subst.
    rewrite app_cons, app_empty_l. simpl. by rewrite Hc.
  - inversion Hacc as [| | | |a Hc| | | | |]; subst.
    rewrite app_cons, app_empty_l. simpl. by rewrite Hc.
  - inversion Hacc as [| | | | |? ? t1 t2 H1 H2| | | |]; subst.
    rewrite app_assoc_string. apply IH1; [done|]. by apply IH2.
  - inversion Hacc as [| | | | | |? ? ? H1|? ? ? H2| |]; subst.
    + destruct (IH1 _ H1 k s2 Hk) as [y ->]. eauto.
    + destruct (exec r1 (s1 +:+ s2) k); [eauto|]. by apply IH2.
  - by apply (star_loop_complete r1 (exec r1) IH1).
Qed.

End Complete.

Lemma scan_sound {A} r s (k : string -> option A) x :
  scan r s k = Some x ->
  exists pre mid post,
    s = pre +:+ mid +:+ post /\ accepts r mid /\ k post = Some x.
Proof.
  induction s as [|a s IH]; simpl.
  - destruct (exec r "" k) as [y|] eqn:E; [|done].
    intros [= ->]. apply exec_sound in E as (s1 & s2 & ? & ? & ?).
    by exists "", s1, s2.
  - destruct (exec r (String a s) k) as [y|] eqn:E.
    + intros [= ->]. apply exec_sound in E as (s1 & s2 & ? & ? & ?).
      by exists "", s1, s2.
    + intros (pre & mid & post & -> & ? & ?)%IH.
      by exists (String a pre), mid, post.
Qed.

Lemma scan_complete {A} r pre mid post (k : string -> option A) :
  accepts r mid -> is_Some (k post) ->
  is_Some (scan r (pre +:+ mid +:+ post) k).
Proof.
  intros Hacc Hk. induction pre as [|a pre IH].
  - rewrite app_empty_l.
    destruct (exec_complete r mid Hacc k post Hk) as [y Hy].
    destruct (mid +:+ post); simpl; rewrite Hy; eauto.
  - rewrite app_cons. simpl.
    destruct (exec r _ k); [eauto | done].
Qed.

(** [re.search] finds a pattern exactly in the texts with a piece the
    pattern accepts. *)
Lemma search_accepts r s :
  search r s = true <->
  exists pre mid post, s = pre +:+ mid +:+ post /\ accepts r mid.
Proof.
  unfold search. rewrite bool_decide_eq_true. split.
  - intros [[] (pre & mid & post & ? & ? & _)%scan_sound]. eauto.
  - intros (pre & mid & post & -> & Hacc). by apply scan_complete.
Qed.

(** ** Literal alternatives *)

Lemma accepts_str p s : accepts (str p) s <-> same_folded s p.
Proof.
  unfold same_folded. revert s; induction p as [|c p IH]; intros s; simpl.
  - split.
    + by inversion 1.
    + destruct s; [constructor | done].
  - split.
    + inversion 1 as [| | | | |? ? s1 s2 H1 H2| | | |]; subst.
      inversion H1 as [|? a Hc| | | | | | | |]; subst.
      rewrite app_cons, app_empty_l. simpl.
      apply bool_decide_eq_true in Hc. rewrite Hc. f_equal. by apply IH.
    + destruct s as [|a s]; [done|]. simpl. intros [= Ha Hs].
      change (String a s) with (String a "" +:+ s).
      constructor; [|by apply IH].
      constructor. by apply bool_decide_eq_true.
Qed.

Lemma accepts_fold_alt rs r s :
  accepts (fold_left Alt rs r) s <->
  accepts r s \/ exists r', r' ∈ rs /\ accepts r' s.
Proof.
  revert r; induction rs as [|r1 rs IH]; intros r; simpl.
  - split; [by left|]. intros [?|(r' & Hin & _)]; [done|].
    by apply elem_of_nil in Hin.
  - rewrite IH. split.
    + intros [Hacc|(r' & Hin & Hacc)].
      * inversion Hacc; subst; [by left|].
        right. exists r1. split; [by left | done].
      * right. exists r'. split; [by right | done].
    + intros [Hacc|(r' & [-> | Hin]%elem_of_cons & Hacc)].
      * left. by apply accepts_alt_l.
      * left. by apply accepts_alt_r.
      * right. eauto.
Qed.

(** A signature made of literal alternatives is found in the lines in
    which one of the literals occurs, in any case. *)
Lemma search_literals p ps s :
  search (any_of (str <$> p :: ps)) s = true <->
  exists q, q ∈ p :: ps /\ occurs_in q s.
Proof.
  rewrite search_accepts. unfold occurs_in. cbn [fmap list_fmap any_of].
  split.
  - intros (pre & mid & post & -> & Hacc).
    apply accepts_fold_alt in Hacc as [Hacc|(r' & Hin & Hacc)].
    + exists p. split; [by left|]. exists pre, mid, post.
      split; [done|]. by apply accepts_str.
    + apply list_elem_of_fmap in Hin as (q & -> & Hin).
      exists q. split; [by right|]. exists pre, mid, post.
      split; [done|]. by apply accepts_str.
  - intros (q & Hin & pre & mid & post & -> & Hsame).
    exists pre, mid, post. split; [done|].
    apply accepts_fold_alt. apply elem_of_cons in Hin as [-> | Hin].
    + left. by apply accepts_str.
    + right. exists (str q). split; [|by apply accepts_str].
      apply list_elem_of_fmap. eauto.
Qed.

(** ** States and what a computation adds to them *)

Lemma add_issues_nil st : add_issues st [] = st.
Proof.
  destruct st as [[] ? ? ?]; unfold add_issues; simpl.
  by rewrite app_nil_r, Nat.add_0_r.
Qed.

Lemma add_issues_app st a b :
  add_issues (add_issues st a) b = add_issues st (a ++ b).
Proof.
  unfold add_issues; simpl.
  rewrite <- app_assoc, length_app, Nat.add_assoc. reflexivity.
Qed.

Lemma emit_nil st : emit st [] = st.
Proof. destruct st; unfold emit; simpl. by rewrite app_nil_r. Qed.

Lemma emit_app st a b : emit (emit st a) b = emit st (a ++ b).
Proof. unfold emit; simpl. by rewrite <- app_assoc. Qed.

Lemma print_emit line st : print line st = (Ok tt, emit st [line]).
Proof. reflexivity. Qed.

Lemma bind_run {A B} (m : M A) (f : A -> M B) st :
  bind m f st
  = match m st with
    | (Ok a, st') => f a st'
    | (Raise e, st') => (Raise e, st')
    end.
Proof. reflexivity. Qed.

Lemma bind_ok {A B} (m : M A) (f : A -> M B) st a st' :
  m st = (Ok a, st') → bind m f st = f a st'.
Proof. intros H. by rewrite bind_run, H. Qed.

Lemma bind_raise {A B} (m : M A) (f : A -> M B) st e st' :
  m st = (Raise e, st') → bind m f st = (Raise e, st').
Proof. intros H. by rewrite bind_run, H. Qed.

(** ** The classifier as a function of the text *)

Lemma length_stamp env line kinds n :
  length (stamp env line kinds n) = length kinds.
Proof. revert n; induction kinds; intros; simpl; auto. Qed.

Lemma try_signature_run env line sig st :
  try_signature env line sig st
  = (Ok tt, add_issues st (stamp env line (matching [sig] line).*1 (clock st))).
Proof.
  destruct sig as [k p]. unfold try_signature, matching.
  rewrite filter_cons, filter_nil. simpl.
  destruct (search p line) eqn:E.
  - rewrite decide_True by done. simpl.
    unfold bind, tick, append_issue, update_self, add_issues; simpl.
    by rewrite Nat.add_1_r.
  - rewrite decide_False by done. simpl. by rewrite add_issues_nil.
Qed.

Lemma stamp_app env line ks1 ks2 n :
  stamp env line (ks1 ++ ks2) n
  = stamp env line ks1 n ++ stamp env line ks2 (n + length ks1).
Proof.
  revert n; induction ks1 as [|k ks1 IH]; intros n; simpl.
  - by rewrite Nat.add_0_r.
  - rewrite IH. do 3 f_equal. lia.
Qed.

Lemma for_each_signatures env line sigs st :
  for_each sigs (try_signature env line) st
  = (Ok tt, add_issues st (stamp env line (matching sigs line).*1 (clock st))).
Proof.
  revert st; induction sigs as [|sig sigs IH]; intros st.
  - simpl. by rewrite add_issues_nil.
  - simpl. unfold bind at 1. rewrite try_signature_run, IH, add_issues_app.
    do 2 f_equal. change (sig :: sigs) with ([sig] ++ sigs).
    unfold matching. rewrite filter_app, fmap_app, stamp_app.
    simpl. by rewrite length_stamp.
Qed.

Lemma scan_line_run env line st :
  scan_line env line st = (Ok tt, add_issues st (line_issues env line (clock st))).
Proof. apply for_each_signatures. Qed.

Lemma for_each_lines env lines st :
  for_each lines (scan_line env) st
  = (Ok tt, add_issues st (content_issues env lines (clock st))).
Proof.
  revert st; induction lines as [|line lines IH]; intros st.
  - simpl. by rewrite add_issues_nil.
  - simpl. unfold bind at 1. by rewrite scan_line_run, IH, add_issues_app.
Qed.

Lemma analyze_log_content_run env content st :
  analyze_log_content env content st
  = (Ok tt,
     add_issues st (content_issues env (Text.split_lines content) (clock st))).
Proof. apply for_each_lines. Qed.

(** ** Fields of the records the run appends *)

Ltac dict_lookup :=
  unfold signature_issue, missing_issue, read_error_issue, dict;
  cbn [list_to_map foldr fst snd]; simplify_map_eq; try done.

Lemma signature_issue_type env line k n :
  signature_issue env line k n !! "type" = Some k.
Proof. by dict_lookup. Qed.

Lemma signature_issue_message env line k n :
  signature_issue env line k n !! "message" = Some (Text.strip line).
Proof. by dict_lookup. Qed.

Lemma signature_issue_mod env line k n :
  signature_issue env line k n !! "mod"
  = Some (default "unknown" (mod_search line)).
Proof. by dict_lookup. Qed.

Lemma signature_issue_severity env line k n :
  signature_issue env line k n !! "severity" = Some (severity_of k).
Proof. by dict_lookup. Qed.

Lemma signature_issue_timestamp env line k n :
  signature_issue env line k n !! "timestamp" = Some (isoformat env n).
Proof. by dict_lookup. Qed.

Lemma severity_of_cases k :
  severity_of k = "critical" ∧ k ∈ critical_kinds
  ∨ severity_of k = "warning" ∧ k ∉ critical_kinds.
Proof.
  unfold severity_of. case_bool_decide; [left | right]; done.
Qed.

Lemma signature_issue_well_formed env line k n :
  well_formed (signature_issue env line k n).
Proof.
  split; [|split].
  - rewrite signature_issue_type; eauto.
  - rewrite signature_issue_message; eauto.
  - unfold severity_ok. rewrite signature_issue_severity.
    destruct (severity_of_cases k) as [[-> _]|[-> _]]; auto.
Qed.

Lemma missing_issue_well_formed path : well_formed (missing_issue path).
Proof. repeat split; unfold severity_ok; dict_lookup; eauto. Qed.

Lemma read_error_issue_well_formed e : well_formed (read_error_issue e).
Proof. repeat split; unfold severity_ok; dict_lookup; eauto. Qed.

Lemma elem_of_stamp env line kinds n i :
  i ∈ stamp env line kinds n →
  ∃ k m, k ∈ kinds ∧ i = signature_issue env line k m.
Proof.
  revert n; induction kinds as [|k kinds IH]; intros n; simpl.
  - by intros ?%elem_of_nil.
  - intros [->|Hin]%elem_of_cons.
    + exists k, n. split; [left | done].
    + destruct (IH _ Hin) as (k' & m & ? & ?).
      exists k', m. split; [by right | done].
Qed.

Lemma elem_of_matching sigs line k :
  k ∈ (matching sigs line).*1 ↔
  ∃ p, (k, p) ∈ sigs ∧ search p line = true.
Proof.
  unfold matching. rewrite list_elem_of_fmap. split.
  - intros ([k' p] & -> & [? ?]%list_elem_of_filter). eauto.
  - intros (p & ? & ?). exists (k, p). split; [done|].
    by apply list_elem_of_filter.
Qed.

Lemma elem_of_content_issues env lines n i :
  i ∈ content_issues env lines n →
  ∃ line k m, line ∈ lines ∧ k ∈ (matching error_patterns line).*1
              ∧ i = signature_issue env line k m.
Proof.
  revert n; induction lines as [|line lines IH]; intros n; simpl.
  - by intros ?%elem_of_nil.
  - intros [Hin|Hin]%elem_of_app.
    + apply elem_of_stamp in Hin as (k & m & ? & ?).
      exists line, k, m. split; [left | done].
    + destruct (IH _ Hin) as (l & k & m & ? & ? & ?).
      exists l, k, m. split; [by right | done].
Qed.

Lemma content_issues_well_formed env lines n :
  Forall well_formed (content_issues env lines n).
Proof.
  apply Forall_forall. intros i (l & k & m & _ & _ & ->)%elem_of_content_issues.
  apply signature_issue_well_formed.
Qed.

(** ** [monitor_logs], case by case *)

Lemma check_success_run patterns content st :
  ∃ st', check_success patterns content st = (Ok tt, st')
    ∧ issues (self st') = issues (self st)
    ∧ minecraft_dir (self st') = minecraft_dir (self st)
    ∧ clock st' = clock st
    ∧ startup_successful (self st')
      = startup_successful (self st)
        || existsb (fun p => search p content) patterns.
Proof.
  induction patterns as [|p ps IH]; simpl.
  - eexists; split; [reflexivity|]. by rewrite orb_false_r.
  - destruct (search p content); simpl.
    + eexists; split; [reflexivity|]. simpl. by rewrite orb_true_r.
    + apply IH.
Qed.

Lemma monitor_logs_absent env st :
  log_artifact env = Absent →
  ∃ st', monitor_logs env st = (Ok tt, st')
    ∧ issues (self st')
      = issues (self st) ++ [missing_issue (log_file (self st))]
    ∧ minecraft_dir (self st') = minecraft_dir (self st)
    ∧ startup_successful (self st') = startup_successful (self st).
Proof.
  intros H. unfold monitor_logs, log_exists. rewrite H.
  eexists; split; [reflexivity|]. by simpl.
Qed.

Lemma monitor_logs_inaccessible env err st :
  log_artifact env = Inaccessible err →
  monitor_logs env st
  = (Raise (OSError err), emit st ["Reading log file for startup issues..."]).
Proof. intros H. unfold monitor_logs, log_exists. by rewrite H. Qed.

Lemma monitor_logs_unreadable env err st :
  log_artifact env = Unreadable err →
  ∃ st', monitor_logs env st = (Ok tt, st')
    ∧ issues (self st')
      = issues (self st) ++ [read_error_issue (OSError err)]
    ∧ minecraft_dir (self st') = minecraft_dir (self st)
    ∧ startup_successful (self st') = startup_successful (self st).
Proof.
  intros H. unfold monitor_logs, log_exists, try_except, read_log. rewrite H.
  eexists; split; [reflexivity|]. by simpl.
Qed.

Lemma monitor_logs_content env text st :
  log_artifact env = Content text →
  ∃ st', monitor_logs env st = (Ok tt, st')
    ∧ issues (self st')
      = issues (self st)
        ++ content_issues env (Text.split_lines text) (clock st)
    ∧ minecraft_dir (self st') = minecraft_dir (self st)
    ∧ startup_successful (self st')
      = startup_successful (self st)
        || existsb (fun p => search p text) success_patterns.
Proof.
  intros H. unfold monitor_logs.
  rewrite (bind_ok _ _ _ _ _ (print_emit _ _)).
  rewrite (bind_ok _ _ _ _ _ eq_refl : bind get_self _ _ = _).
  unfold log_exists. rewrite H.
  rewrite (bind_ok _ _ _ _ _ eq_refl : bind (ret true) _ _ = _).
  cbn [negb]. unfold try_except, read_log. rewrite H.
  rewrite (bind_ok _ _ _ _ _ eq_refl : bind (ret text) _ _ = _).
  rewrite (bind_ok _ _ _ _ _ (analyze_log_content_run _ _ _)).
  match goal with
  | |- context [check_success ?ps ?c ?s] =>
      destruct (check_success_run ps c s) as (st' & -> & Hi & Hd & _ & Hs)
  end.
  exists st'. split; [reflexivity|]. rewrite Hi, Hd, Hs. done.
Qed.

(** Whatever the artifact and however [monitor_logs] ends, it leaves
    well-formed issues behind. *)
Lemma monitor_logs_total env st :
  Forall well_formed (issues (self st)) →
  ∃ r st', monitor_logs env st = (r, st')
    ∧ Forall well_formed (issues (self st'))
    ∧ minecraft_dir (self st') = minecraft_dir (self st).
Proof.
  intros Hwf. destruct (log_artifact env) as [|err|err|text] eqn:H.
  - destruct (monitor_logs_absent env st H) as (st' & ? & Hi & ? & _).
    exists (Ok tt), st'. repeat split; try done. rewrite Hi.
    apply Forall_app; split; [done|].
    repeat constructor; apply missing_issue_well_formed.
  - rewrite (monitor_logs_inaccessible env err st H). by do 2 eexists.
  - destruct (monitor_logs_unreadable env err st H) as (st' & ? & Hi & ? & _).
    exists (Ok tt), st'. repeat split; try done. rewrite Hi.
    apply Forall_app; split; [done|].
    repeat constructor; apply read_error_issue_well_formed.
  - destruct (monitor_logs_content env text st H) as (st' & ? & Hi & ? & _).
    exists (Ok tt), st'. repeat split; try done. rewrite Hi.
    apply Forall_app; split; [done|]. apply content_issues_well_formed.
Qed.

(** ** The reporter on well-formed issues *)

Lemma select_severity v l :
  Forall well_formed l →
  select "severity" v l = Ok (filter (fun i : Issue => i !! "severity" = Some v) l).
Proof.
  induction 1 as [|i l (_ & _ & Hs) _ IH]; simpl; [done|].
  rewrite IH. unfold getitem. rewrite filter_cons.
  destruct Hs as [-> | ->]; do 2 case_decide; try done;
    try (rewrite bool_decide_true by congruence; done);
    try (rewrite bool_decide_false by congruence; done);
    exfalso; naive_solver.
Qed.

Lemma severity_partition l :
  Forall severity_ok l →
  length (filter (fun i : Issue => i !! "severity" = Some "critical") l)
  + length (filter (fun i : Issue => i !! "severity" = Some "warning") l)
  = length l.
Proof.
  induction 1 as [|i l Hs _ IH]; simpl; [done|].
  rewrite !filter_cons.
  destruct Hs as [E | E]; rewrite E;
    repeat case_decide; try done; simpl; lia.
Qed.

Lemma well_formed_severity_ok l :
  Forall well_formed l → Forall severity_ok l.
Proof. intros H. eapply Forall_impl; [exact H|]. by intros i (_ & _ & ?). Qed.

Lemma Forall_filtered {A} (P Q : A → Prop) `{∀ x, Decision (Q x)} l :
  Forall P l → Forall P (filter Q l).
Proof.
  rewrite !Forall_forall. intros H' x [_ ?]%list_elem_of_filter. auto.
Qed.

Lemma issue_line_ok i :
  well_formed i → ∃ line, issue_line i = Ok line.
Proof.
  intros ([ty Ht] & [msg Hm] & _). unfold issue_line, getitem.
  rewrite Ht, Hm. eauto.
Qed.

Lemma emits_ret {A} (a : A) : emits (ret a) a [].
Proof. intros st. by rewrite emit_nil. Qed.

Lemma emits_lift {A} (a : A) : emits (lift (Ok a)) a [].
Proof. intros st. by rewrite emit_nil. Qed.

Lemma emits_print line : emits (print line) tt [line].
Proof. intros st. apply print_emit. Qed.

Lemma emits_bind {A B} (m : M A) (f : A -> M B) a b l1 l2 :
  emits m a l1 → emits (f a) b l2 → emits (bind m f) b (l1 ++ l2).
Proof.
  intros Hm Hf st. by rewrite (bind_ok _ _ _ _ _ (Hm st)), Hf, emit_app.
Qed.

Lemma emits_inj {A} (m : M A) a l1 l2 : emits m a l1 → emits m a l2 → l1 = l2.
Proof.
  intros H1 H2.
  pose proof (H1 {| self := init "" "" 0; clock := 0; stdout := [];
                    files := [] |}) as E.
  rewrite H2 in E. by injection E.
Qed.

Lemma prints_ret {A} (a : A) : prints (ret a) a.
Proof. eexists. apply emits_ret. Qed.

Lemma prints_print line : prints (print line) tt.
Proof. eexists. apply emits_print. Qed.

Lemma prints_bind {A B} (m : M A) (f : A -> M B) a b :
  prints m a → prints (f a) b → prints (bind m f) b.
Proof. intros [l1 H1] [l2 H2]. eexists. by eapply emits_bind. Qed.

Lemma prints_for_each {A} (xs : list A) (body : A -> M unit) :
  (∀ x, x ∈ xs → prints (body x) tt) → prints (for_each xs body) tt.
Proof.
  induction xs as [|x xs IH]; intros H; simpl.
  - apply prints_ret.
  - eapply prints_bind.
    + apply H. by left.
    + apply IH. intros y Hy. apply H. by right.
Qed.

Lemma prints_print_critical i : well_formed i → prints (print_critical i) tt.
Proof.
  intros Hwf. destruct (issue_line_ok i Hwf) as (line & E).
  unfold print_critical. rewrite E. eapply prints_bind.
  - eexists. apply emits_lift.
  - eapply prints_bind; [apply prints_print|].
    destruct (i !! "mod"); [|apply prints_ret].
    case_bool_decide; [apply prints_print | apply prints_ret].
Qed.

Lemma prints_print_criticals l :
  Forall well_formed l → prints (print_criticals l) tt.
Proof.
  intros Hwf. unfold print_criticals. destruct l as [|i l]; [apply prints_ret|].
  eapply prints_bind; [apply prints_print|].
  apply prints_for_each. intros x Hx. apply prints_print_critical.
  by apply (proj1 (Forall_forall _ _) Hwf).
Qed.

(** The warning entries are exactly the lines of the issues shown. *)
Lemma for_each_print_warning ws :
  Forall well_formed ws →
  ∃ entries, Forall2 (fun i e => issue_line i = Ok e) ws entries
    ∧ emits (for_each ws print_warning) tt entries.
Proof.
  induction 1 as [|i ws Hi _ (entries & HF & Hrun)]; simpl.
  - exists []. split; [constructor | apply emits_ret].
  - destruct (issue_line_ok i Hi) as (line & E).
    exists (line :: entries). split; [by constructor|].
    apply (emits_bind _ _ tt tt [line] entries); [|done].
    unfold print_warning. rewrite E.
    apply (emits_bind _ _ line tt [] [line]);
      [apply emits_lift | apply emits_print].
Qed.

Lemma print_warnings_run ws :
  Forall well_formed ws →
  ∃ entries, Forall2 (fun i e => issue_line i = Ok e) (take 5 ws) entries
    ∧ emits (print_warnings ws) tt (warnings_block ws entries).
Proof.
  intros Hwf.
  destruct (for_each_print_warning (take 5 ws)) as (entries & HF & Hrun);
    [by apply Forall_take|].
  exists entries. split; [done|].
  unfold print_warnings, warnings_block.
  destruct ws as [|w ws]; [apply emits_ret|].
  apply (emits_bind _ _ tt tt [warnings_header]); [apply emits_print|].
  apply (emits_bind _ _ tt tt entries); [done|].
  destruct (5 <? length (w :: ws)); [apply emits_print | apply emits_ret].
Qed.

Lemma prints_print_warnings l :
  Forall well_formed l → prints (print_warnings l) tt.
Proof.
  intros Hwf. destruct (print_warnings_run l Hwf) as (? & _ & ?).
  by eexists.
Qed.

Ltac enter_generate_report env st W :=
  unfold generate_report;
  rewrite (bind_ok _ _ _ _ _ eq_refl : bind get_self _ _ = _);
  rewrite (bind_ok _ _ _ _ _ eq_refl : bind tick _ _ = _);
  rewrite !select_severity by done; unfold lift at 1 2;
  do 2 rewrite (bind_ok _ _ _ _ _ eq_refl);
  rewrite (bind_ok _ _ _ _ _ eq_refl : bind tick _ _ = _);
  cbv beta zeta; cbn [self clock];
  fold (report_of env st); fold (report_file_of env st);
  unfold save_report at 1; rewrite W;
  rewrite bind_run; cbv beta iota; cbn [self clock stdout files].

(** The console of [generate_report]: some lines that do not depend on
    what the warnings block prints, then that block, then the line naming
    the saved file. *)
Lemma generate_report_console env st :
  Forall well_formed (issues (self st)) →
  dir_writable env = true →
  ∃ before, ∀ block,
    emits (print_warnings
             (filter (fun i : Issue => i !! "severity" = Some "warning")
                (issues (self st)))) tt block →
    generate_report env st
    = (Ok (report_of env st),
       {| self := self st; clock := S (S (clock st));
          stdout := stdout st ++ before ++ block ++ [saved_line env st];
          files := files st ++ [(report_file_of env st, report_of env st)] |}).
Proof.
  intros Hwf W.
  destruct (prints_print_criticals
              (filter (fun i : Issue => i !! "severity" = Some "critical")
                 (issues (self st)))) as (crit_lines & Hc);
    [by apply Forall_filtered|].
  exists (summary_head env st
            ++ match issues (self st) with
               | [] => []
               | _ => [nl +:+ "ISSUES DETECTED:"; Text.repeat "-" 40]
                        ++ crit_lines
               end).
  intros block Hb. enter_generate_report env st W.
  match goal with
  | |- ?m ?s = _ =>
      assert (emits m (report_of env st)
                (summary_head env st
                   ++ match issues (self st) with
                      | [] => []
                      | _ => [nl +:+ "ISSUES DETECTED:"; Text.repeat "-" 40]
                               ++ crit_lines ++ block
                      end ++ [saved_line env st])) as Hp
  end.
  { unfold summary_head.
    do 8 (apply (emits_bind _ _ tt _ [_]); [apply emits_print|]).
    apply (emits_bind _ _ tt).
    - destruct (issues (self st)) eqn:E; [apply emits_ret|].
      rewrite <- E in Hwf, Hc, Hb |- *.
      do 2 (apply (emits_bind _ _ tt _ [_]); [apply emits_print|]).
      eapply (emits_bind _ _ _ _ []); [apply emits_lift|].
      eapply (emits_bind _ _ _ _ []); [apply emits_lift|].
      by apply (emits_bind _ _ tt).
    - apply (emits_bind _ _ tt _ [_] []); [apply emits_print|apply emits_ret]. }
  rewrite Hp. unfold emit. cbn [self clock stdout files]. do 3 f_equal.
  destruct (issues (self st)) eqn:E.
  - cbn [filter list_filter] in Hb.
    rewrite (emits_inj _ _ _ _ Hb (emits_ret tt)).
    by rewrite !app_nil_r.
  - by rewrite <- !app_assoc.
Qed.

Lemma generate_report_run env st :
  Forall well_formed (issues (self st)) →
  if dir_writable env then
    ∃ lines,
      generate_report env st
      = (Ok (report_of env st),
         {| self := self st; clock := S (S (clock st));
            stdout := stdout st ++ lines;
            files := files st ++ [(report_file_of env st, report_of env st)] |})
  else
    ∃ msg st', generate_report env st = (Raise (OSError msg), st').
Proof.
  intros Hwf. destruct (dir_writable env) eqn:W.
  - destruct (generate_report_console env st Hwf W) as (before & Hrun).
    destruct (prints_print_warnings
                (filter (fun i : Issue => i !! "severity" = Some "warning")
                   (issues (self st)))) as (block & Hb);
      [by apply Forall_filtered|].
    eexists. by apply Hrun.
  - enter_generate_report env st W. do 2 eexists. reflexivity.
Qed.

(** ** What a step appends *)

Lemma appended_add_issues {A} (m : M A) st r new :
  m st = (r, add_issues st new) → appended m st = new.
Proof.
  intros E. unfold appended. rewrite E. simpl. by rewrite drop_app_length.
Qed.

Lemma appended_scan_line env line st :
  appended (scan_line env line) st = line_issues env line (clock st).
Proof. eapply appended_add_issues, scan_line_run. Qed.

Lemma appended_analyze_log_content env content st :
  appended (analyze_log_content env content) st
  = content_issues env (Text.split_lines content) (clock st).
Proof. eapply appended_add_issues, analyze_log_content_run. Qed.

Lemma appended_issues {A} (m : M A) st new :
  issues (self (m st).2) = issues (self st) ++ new → appended m st = new.
Proof. intros E. unfold appended. by rewrite E, drop_app_length. Qed.

Lemma matches_matching k line :
  matches k line ↔ k ∈ (matching error_patterns line).*1.
Proof. symmetry. apply elem_of_matching. Qed.

(** The [file_not_found] signature, read off the table: one of its three
    phrases occurs in the line, in any case. *)
Lemma matches_file_not_found line :
  matches "file_not_found" line ↔
  occurs_in "FileNotFoundException" line
  ∨ occurs_in "Could not find file" line
  ∨ occurs_in "Missing file" line.
Proof.
  pose proof (search_literals "FileNotFoundException"
                ["Could not find file"; "Missing file"] line) as Hlit.
  cbn [fmap list_fmap] in Hlit. unfold matches. split.
  - intros (p & Hin & Hs). unfold error_patterns in Hin.
    repeat (apply elem_of_cons in Hin as [Heq | Hin];
            [first [discriminate Heq | injection Heq as ->]|]);
      [|by apply elem_of_nil in Hin].
    apply Hlit in Hs as (q & Hq & Hocc).
    apply elem_of_cons in Hq as [-> | Hq]; [by left|].
    apply elem_of_cons in Hq as [-> | Hq]; [right; by left|].
    apply list_elem_of_singleton in Hq as ->. right; by right.
  - intros Hocc. eexists. split; [do 3 right; left|].
    apply Hlit. destruct Hocc as [?|[?|?]]; eexists; (split; [|eassumption]).
    + by left.
    + right; by left.
    + right; right; by left.
Qed.

Lemma fmap_type_stamp env line kinds n :
  (fun i : Issue => i !! "type") <$> stamp env line kinds n = Some <$> kinds.
Proof.
  revert n; induction kinds as [|k kinds IH]; intros n; [done|].
  cbn [stamp]. rewrite !fmap_cons. by rewrite IH, signature_issue_type.
Qed.

(** No first-match rule: a line gives one issue for each signature it
    matches, in table order. *)
Lemma scan_line_kinds env line st :
  (fun i : Issue => i !! "type") <$> appended (scan_line env line) st
  = Some <$> (matching error_patterns line).*1.
Proof. rewrite appended_scan_line. apply fmap_type_stamp. Qed.

Lemma error_patterns_kinds :
  error_patterns.*1
  = [ "mod_loading_error"; "dependency_missing"; "version_conflict";
      "file_not_found"; "mixin_error"; "memory_error"; "duplicate_mod";
      "config_error"; "java_error"; "forge_error" ].
Proof. reflexivity. Qed.

Lemma NoDup_error_kinds : NoDup error_patterns.*1.
Proof.
  rewrite error_patterns_kinds.
  apply (bool_decide_unpack (NoDup _)). vm_compute. exact I.
Qed.

Lemma matching_sublist sigs line :
  (matching sigs line).*1 `sublist_of` sigs.*1.
Proof. apply fmap_sublist, sublist_filter. Qed.

Lemma NoDup_matching line : NoDup (matching error_patterns line).*1.
Proof.
  eapply sublist_NoDup; [apply NoDup_error_kinds | apply matching_sublist].
Qed.

(** ** A whole run *)

(** The thread ends in the state its target leaves, however the target
    ends. *)
Lemma start_and_join_run target st r st1 :
  target st = (r, st1) → start_and_join target st = (Ok tt, st1).
Proof.
  intros H. unfold start_and_join, try_except. rewrite H.
  by destruct r as [[]|e].
Qed.

(** [run_test] is [generate_report] in the state [monitor_logs] leaves,
    however [monitor_logs] ends. *)
Lemma run_test_from env st r st1 :
  monitor_logs env (emit st banner) = (r, st1) →
  run_test env st = generate_report env st1.
Proof.
  intros Hmon. unfold run_test.
  do 2 rewrite (bind_ok _ _ _ _ _ (print_emit _ _)).
  rewrite !emit_app.
  rewrite bind_run. unfold try_finally, launch_minecraft.
  match goal with
  | |- context [bind ?m ?f ?s] =>
      assert (m s = (Ok true, emit st banner)) as Hlaunch
  end.
  { rewrite (bind_ok _ _ _ _ _ (print_emit _ _)). by rewrite emit_app. }
  rewrite (bind_ok _ _ _ _ _ Hlaunch). cbn [negb].
  rewrite (bind_ok _ _ _ _ _ (start_and_join_run _ _ _ _ Hmon)). reflexivity.
Qed.

(** [run_test] is [monitor_logs] followed by [generate_report]. *)
Lemma run_test_run env st :
  ∀ st1, monitor_logs env (emit st banner) = (Ok tt, st1) →
         run_test env st = generate_report env st1.
Proof. intros st1. apply run_test_from. Qed.

Lemma fresh_well_formed dir : Forall well_formed (issues (self (fresh dir))).
Proof. constructor. Qed.

(** ** The report's counts *)

(** C1. Whatever the log artifact and the clock, a run of a fresh tester
    either cannot create the report file and raises, or returns a report
    in which [critical_issues + warning_issues = total_issues], the total
    is the length of the issue list, and every issue has severity exactly
    ["critical"] or ["warning"]. *)
Theorem report_counts_agree (env : Env) (dir : string) :
  match run_test env (fresh dir) with
  | (Ok report, _) =>
      dir_writable env = true
      ∧ critical_issues report + warning_issues report = total_issues report
      ∧ total_issues report = length (report_issues report)
      ∧ Forall severity_ok (report_issues report)
  | (Raise _, _) => dir_writable env = false
  end.
Proof.
  destruct (monitor_logs_total env (emit (fresh dir) banner)) as
    (r & st1 & Hmon & Hwf & _); [constructor|].
  rewrite (run_test_from _ _ _ _ Hmon).
  pose proof (generate_report_run env st1 Hwf) as Hgen.
  destruct (dir_writable env).
  - destruct Hgen as (lines & ->). cbn [report_of total_issues critical_issues
      warning_issues report_issues].
    apply well_formed_severity_ok in Hwf.
    repeat split; try done. by apply severity_partition.
  - by destruct Hgen as (msg & st' & ->).
Qed.

(** ** A missing log artifact *)

(** C3. When the log artifact does not exist, [monitor_logs] appends one
    issue and nothing else: a run of a fresh tester that can save its
    report returns one with exactly one issue, of kind ["file_not_found"]
    and severity ["critical"], and [startup_successful] false. *)
Theorem missing_log_single_issue (env : Env) (dir : string) :
  log_artifact env = Absent →
  match run_test env (fresh dir) with
  | (Ok report, _) =>
      ∃ i, report_issues report = [i]
        ∧ i !! "type" = Some "file_not_found"
        ∧ i !! "severity" = Some "critical"
        ∧ total_issues report = 1
        ∧ critical_issues report = 1
        ∧ warning_issues report = 0
        ∧ report_startup_successful report = false
  | (Raise _, _) => dir_writable env = false
  end.
Proof.
  intros Habs.
  destruct (monitor_logs_absent env (emit (fresh dir) banner) Habs) as
    (st1 & Hmon & Hi & _ & Hs).
  rewrite (run_test_run _ _ _ Hmon).
  assert (Forall well_formed (issues (self st1))) as Hwf.
  { rewrite Hi. repeat constructor; apply missing_issue_well_formed. }
  pose proof (generate_report_run env st1 Hwf) as Hgen.
  destruct (dir_writable env).
  - destruct Hgen as (lines & ->). cbn [report_of total_issues critical_issues
      warning_issues report_issues report_startup_successful].
    rewrite Hi, Hs. eexists. split; [reflexivity|].
    repeat split; try by dict_lookup.
  - by destruct Hgen as (msg & st' & ->).
Qed.

Lemma missing_log_single_issue_witness :
  match run_test (example_env Absent true) (fresh "/mc") with
  | (Ok report, _) =>
      ∃ i, report_issues report = [i]
        ∧ i !! "type" = Some "file_not_found"
        ∧ i !! "severity" = Some "critical"
        ∧ total_issues report = 1
        ∧ critical_issues report = 1
        ∧ warning_issues report = 0
        ∧ report_startup_successful report = false
  | (Raise _, _) => dir_writable (example_env Absent true) = false
  end.
Proof. apply (missing_log_single_issue (example_env Absent true) "/mc"). reflexivity. Defined.

(** ** One line against the signature table *)

Lemma two_kinds (ks : list string) k1 k2 :
  NoDup ks → k1 ≠ k2 → k1 ∈ ks → k2 ∈ ks →
  (∀ k, k ∈ ks → k = k1 ∨ k = k2) →
  ks = [k1; k2] ∨ ks = [k2; k1].
Proof.
  intros Hnd Hne H1 H2 Hall.
  destruct ks as [|a [|b [|c ks]]].
  - by apply elem_of_nil in H1.
  - apply list_elem_of_singleton in H1, H2. congruence.
  - apply NoDup_cons in Hnd as [Hab _].
    assert (a ≠ b) by (intros ->; apply Hab; by left).
    destruct (Hall a) as [-> | ->]; [by left| |];
      (destruct (Hall b) as [-> | ->]; [right; by left|..]);
      try done; auto.
  - exfalso.
    apply NoDup_cons in Hnd as [Ha Hnd]. apply NoDup_cons in Hnd as [Hb _].
    assert (a ≠ b) by (intros ->; apply Ha; by left).
    assert (a ≠ c) by (intros ->; apply Ha; right; by left).
    assert (b ≠ c) by (intros ->; apply Hb; by left).
    destruct (Hall a) as [-> | ->]; [by left| |];
      (destruct (Hall b) as [-> | ->]; [right; by left|..]);
      try done;
      (destruct (Hall c) as [-> | ->]; [right; right; by left|..]);
      done.
Qed.

(** C5. A line that matches the signatures of two distinct kinds, and of
    no other kind, makes the scan of that line append exactly two issues,
    one of each kind, both carrying the line. *)
Theorem two_signatures_two_issues (env : Env) (st : State)
    (line k1 k2 : string) :
  k1 ≠ k2 → matches k1 line → matches k2 line →
  (∀ k, matches k line → k = k1 ∨ k = k2) →
  ∃ i1 i2,
    appended (scan_line env line) st = [i1; i2]
    ∧ (i1 !! "type" = Some k1 ∧ i2 !! "type" = Some k2
       ∨ i1 !! "type" = Some k2 ∧ i2 !! "type" = Some k1)
    ∧ i1 !! "message" = Some (Text.strip line)
    ∧ i2 !! "message" = Some (Text.strip line).
Proof.
  intros Hne H1 H2 Hall.
  rewrite appended_scan_line. unfold line_issues.
  destruct (two_kinds (matching error_patterns line).*1 k1 k2) as [-> | ->];
    [apply NoDup_matching | done | by apply matches_matching..
    | intros k Hk; by apply Hall, matches_matching | |];
    cbn [stamp]; do 2 eexists; (split; [reflexivity|]);
    rewrite !signature_issue_type, !signature_issue_message; auto.
Qed.

Lemma two_signatures_two_issues_witness :
  ∃ i1 i2,
    appended (scan_line (example_env Absent true)
                "[main/ERROR]: Failed to load mod: Missing file jei.toml")
      (fresh "/mc") = [i1; i2]
    ∧ (i1 !! "type" = Some "mod_loading_error"
       ∧ i2 !! "type" = Some "file_not_found"
       ∨ i1 !! "type" = Some "file_not_found"
         ∧ i2 !! "type" = Some "mod_loading_error")
    ∧ i1 !! "message"
      = Some (Text.strip
                "[main/ERROR]: Failed to load mod: Missing file jei.toml")
    ∧ i2 !! "message"
      = Some (Text.strip
                "[main/ERROR]: Failed to load mod: Missing file jei.toml").
Proof.
  apply (two_signatures_two_issues (example_env Absent true) (fresh "/mc")
           "[main/ERROR]: Failed to load mod: Missing file jei.toml"
           "mod_loading_error" "file_not_found").
  - discriminate.
  - apply matches_matching. vm_compute. left.
  - apply matches_matching. vm_compute. right. left.
  - intros k Hk. apply matches_matching in Hk. vm_compute in Hk.
    apply elem_of_cons in Hk as [-> | Hk]; [by left|].
    apply elem_of_cons in Hk as [-> | Hk]; [by right|].
    by apply elem_of_nil in Hk.
Defined.

Lemma filter_type_stamp env line kinds n k :
  length (filter (fun i : Issue => i !! "type" = Some k)
            (stamp env line kinds n))
  = length (filter (fun k' => k' = k) kinds).
Proof.
  revert n; induction kinds as [|k' kinds IH]; intros n; [done|].
  cbn [stamp]. rewrite !filter_cons, signature_issue_type.
  destruct (decide (k' = k)) as [-> | Hne].
  - rewrite decide_True by done. simpl. by rewrite IH.
  - rewrite decide_False by congruence. apply IH.
Qed.

Lemma filter_eq_absent (ks : list string) k :
  k ∉ ks → filter (fun k' => k' = k) ks = [].
Proof.
  induction ks as [|k' ks IH]; intros Hk; [done|].
  rewrite filter_cons_False.
  - apply IH. intros ?. apply Hk. by right.
  - intros ->. apply Hk. by left.
Qed.

Lemma NoDup_filter_eq (ks : list string) k :
  NoDup ks → length (filter (fun k' => k' = k) ks) ≤ 1.
Proof.
  induction 1 as [|k' ks Hnotin _ IH]; [simpl; lia|].
  rewrite filter_cons. destruct (decide (k' = k)) as [-> | Hne]; [|done].
  by rewrite filter_eq_absent.
Qed.

(** C9. Scanning one line appends at most one issue of any given kind,
    however often the pattern occurs in the line, and hence at most ten
    issues, one per signature of the table. *)
Theorem one_issue_per_line_and_kind (env : Env) (st : State)
    (line k : string) :
  length (filter (fun i : Issue => i !! "type" = Some k)
            (appended (scan_line env line) st)) ≤ 1
  ∧ length (appended (scan_line env line) st) ≤ length error_patterns
  ∧ length error_patterns = 10.
Proof.
  rewrite appended_scan_line. unfold line_issues. split; [|split].
  - rewrite filter_type_stamp. apply NoDup_filter_eq, NoDup_matching.
  - rewrite length_stamp.
    rewrite <- (length_fmap fst error_patterns).
    apply sublist_length, matching_sublist.
  - reflexivity.
Qed.

(** ** Severity is looked up from the kind *)

(** C6. Every issue that [analyze_log_content] appends has a kind of the
    signature table, and its severity is ["critical"] exactly when the kind
    is one of [mod_loading_error], [memory_error], [java_error], and
    ["warning"] exactly when it is not: the line plays no part. *)
Theorem severity_by_kind (env : Env) (st : State) (content : string)
    (i : Issue) :
  i ∈ appended (analyze_log_content env content) st →
  ∃ k, i !! "type" = Some k
    ∧ k ∈ error_patterns.*1
    ∧ i !! "severity" = Some (severity_of k)
    ∧ (i !! "severity" = Some "critical"
       ↔ k ∈ ["mod_loading_error"; "memory_error"; "java_error"])
    ∧ (i !! "severity" = Some "warning"
       ↔ k ∉ ["mod_loading_error"; "memory_error"; "java_error"]).
Proof.
  rewrite appended_analyze_log_content.
  intros (line & k & m & _ & Hk & ->)%elem_of_content_issues.
  exists k. rewrite signature_issue_type, signature_issue_severity.
  split; [done|]. split.
  - apply elem_of_matching in Hk as (p & Hp & _).
    apply list_elem_of_fmap. by exists (k, p).
  - split; [done|].
    destruct (severity_of_cases k) as [[-> Hin] | [-> Hnotin]];
      unfold critical_kinds in *; split; split; intros ?; done.
Qed.

Lemma severity_by_kind_witness :
  let env := example_env Absent true in
  let i := signature_issue env "java.lang.OutOfMemoryError: Java heap space"
             "memory_error" 0 in
  ∃ k, i !! "type" = Some k
    ∧ k ∈ error_patterns.*1
    ∧ i !! "severity" = Some (severity_of k)
    ∧ (i !! "severity" = Some "critical"
       ↔ k ∈ ["mod_loading_error"; "memory_error"; "java_error"])
    ∧ (i !! "severity" = Some "warning"
       ↔ k ∉ ["mod_loading_error"; "memory_error"; "java_error"]).
Proof.
  intros env i.
  apply (severity_by_kind env (fresh "/mc")
           "java.lang.OutOfMemoryError: Java heap space" i).
  rewrite appended_analyze_log_content. vm_compute. left.
Defined.

(** ** Classification does not depend on the clock *)

Lemma signature_issue_same env1 env2 line k n1 n2 :
  same_but_timestamp (signature_issue env1 line k n1)
    (signature_issue env2 line k n2).
Proof.
  intros field Hf. unfold signature_issue, dict.
  cbn [list_to_map foldr fst snd].
  rewrite !lookup_insert. repeat case_decide; done.
Qed.

Lemma stamp_same env1 env2 line kinds n1 n2 :
  Forall2 same_but_timestamp
    (stamp env1 line kinds n1) (stamp env2 line kinds n2).
Proof.
  revert n1 n2; induction kinds as [|k kinds IH]; intros n1 n2; cbn [stamp].
  - constructor.
  - constructor; [apply signature_issue_same | apply IH].
Qed.

Lemma content_issues_same env1 env2 lines n1 n2 :
  Forall2 same_but_timestamp
    (content_issues env1 lines n1) (content_issues env2 lines n2).
Proof.
  revert n1 n2; induction lines as [|l lines IH]; intros n1 n2;
    cbn [content_issues].
  - constructor.
  - apply Forall2_app; [apply stamp_same | apply IH].
Qed.

Lemma same_but_timestamp_delete i j :
  same_but_timestamp i j → delete "timestamp" i = delete "timestamp" j.
Proof.
  intros H. apply map_eq. intros f.
  destruct (decide (f = "timestamp")) as [-> | Hf].
  - by rewrite !lookup_delete_eq.
  - rewrite !lookup_delete_ne by done. by apply H.
Qed.

(** C8. Two classifications of the same text, whatever the clocks and the
    states they start from, append issue sequences of the same length that
    agree, position by position, on every field but ["timestamp"]. *)
Theorem classification_repeatable (env1 env2 : Env) (st1 st2 : State)
    (content : string) :
  Forall2 same_but_timestamp
    (appended (analyze_log_content env1 content) st1)
    (appended (analyze_log_content env2 content) st2)
  ∧ delete "timestamp" <$> appended (analyze_log_content env1 content) st1
    = delete "timestamp" <$> appended (analyze_log_content env2 content) st2.
Proof.
  rewrite !appended_analyze_log_content.
  pose proof (content_issues_same env1 env2 (Text.split_lines content)
                (clock st1) (clock st2)) as H.
  split; [done|].
  induction H as [|i j l1 l2 Hij _ IH]; [done|].
  rewrite !fmap_cons. f_equal; [by apply same_but_timestamp_delete | done].
Qed.

(** ** The fields of an issue *)

Lemma dom_missing_issue path : dom (missing_issue path) = synthetic_fields.
Proof.
  unfold missing_issue, dict, synthetic_fields. cbn [list_to_map foldr fst snd].
  rewrite !dom_insert_L, dom_empty_L. set_solver.
Qed.

Lemma dom_read_error_issue e : dom (read_error_issue e) = synthetic_fields.
Proof.
  unfold read_error_issue, dict, synthetic_fields.
  cbn [list_to_map foldr fst snd].
  rewrite !dom_insert_L, dom_empty_L. set_solver.
Qed.

Lemma dom_signature_issue env line k n :
  dom (signature_issue env line k n) = signature_fields.
Proof.
  unfold signature_issue, dict, signature_fields.
  cbn [list_to_map foldr fst snd].
  rewrite !dom_insert_L, dom_empty_L. set_solver.
Qed.

Lemma synthetic_in_signature : synthetic_fields ⊆ signature_fields.
Proof.
  apply (bool_decide_unpack (synthetic_fields ⊆ signature_fields)).
  vm_compute. exact I.
Qed.

(** The report of a run of a fresh tester, from the state [monitor_logs]
    leaves. *)
Lemma run_test_report env dir st1 :
  monitor_logs env (emit (fresh dir) banner) = (Ok tt, st1) →
  Forall well_formed (issues (self st1)) →
  match run_test env (fresh dir) with
  | (Ok report, _) => report = report_of env st1 ∧ dir_writable env = true
  | (Raise _, _) => dir_writable env = false
  end.
Proof.
  intros Hmon Hwf. rewrite (run_test_run _ _ _ Hmon).
  pose proof (generate_report_run env st1 Hwf) as Hgen.
  destruct (dir_writable env).
  - by destruct Hgen as (lines & ->).
  - by destruct Hgen as (msg & st' & ->).
Qed.

Lemma run_test_report_from env dir r st1 :
  monitor_logs env (emit (fresh dir) banner) = (r, st1) →
  Forall well_formed (issues (self st1)) →
  match run_test env (fresh dir) with
  | (Ok report, _) => report = report_of env st1 ∧ dir_writable env = true
  | (Raise _, _) => dir_writable env = false
  end.
Proof.
  intros Hmon Hwf. rewrite (run_test_from _ _ _ _ Hmon).
  pose proof (generate_report_run env st1 Hwf) as Hgen.
  destruct (dir_writable env).
  - by destruct Hgen as (lines & ->).
  - by destruct Hgen as (msg & st' & ->).
Qed.

(** C2, as the code has it. A missing artifact ([exists()] is false) and a
    read error ([open] or [read] raises) each appear in the report as one
    issue, of kind ["file_not_found"] and ["log_read_error"].  Every issue
    of a report has the fields ["type"], ["message"] and ["severity"].
    The issue recorded for a missing or unreadable artifact has exactly
    these three and is critical; for a readable log the issues are those
    of the signature matches, which have ["mod"] and ["timestamp"]
    besides.  When [exists()] itself raises, the report has no issue. *)
Theorem issue_fields_by_origin (env : Env) (dir : string) :
  match run_test env (fresh dir) with
  | (Ok report, _) =>
      Forall (fun i : Issue =>
                synthetic_fields ⊆ dom i
                ∧ match log_artifact env with
                  | Content _ => dom i = signature_fields
                  | _ => dom i = synthetic_fields
                         ∧ i !! "severity" = Some "critical"
                  end)
        (report_issues report)
      ∧ match log_artifact env with
        | Absent =>
            ∃ i, report_issues report = [i]
                 ∧ i !! "type" = Some "file_not_found"
        | Unreadable _ =>
            ∃ i, report_issues report = [i]
                 ∧ i !! "type" = Some "log_read_error"
        | Content text =>
            report_issues report
            = appended (analyze_log_content env text) (fresh dir)
        | Inaccessible _ => report_issues report = []
        end
  | (Raise _, _) => dir_writable env = false
  end.
Proof.
  destruct (log_artifact env) as [|err|err|text] eqn:H.
  - destruct (monitor_logs_absent env (emit (fresh dir) banner) H)
      as (st1 & Hmon & Hi & _).
    pose proof (run_test_report env dir st1 Hmon) as Hrun.
    rewrite Hi in Hrun.
    destruct (run_test env (fresh dir)) as [[report|e] st'].
    + destruct Hrun as [-> _];
        [repeat constructor; apply missing_issue_well_formed|].
      cbn [report_of report_issues]. rewrite Hi. split.
      * repeat constructor; rewrite ?dom_missing_issue; try done.
      * eexists. split; [reflexivity|]. by dict_lookup.
    + apply Hrun. repeat constructor; apply missing_issue_well_formed.
  - pose proof (run_test_report_from env dir _ _
                  (monitor_logs_inaccessible env err _ H)) as Hrun.
    destruct (run_test env (fresh dir)) as [[report|e] st'].
    + destruct Hrun as [-> _]; [constructor|].
      cbn [report_of report_issues]. split; [constructor | done].
    + apply Hrun. constructor.
  - destruct (monitor_logs_unreadable env err (emit (fresh dir) banner) H)
      as (st1 & Hmon & Hi & _).
    pose proof (run_test_report env dir st1 Hmon) as Hrun.
    rewrite Hi in Hrun.
    destruct (run_test env (fresh dir)) as [[report|e] st'].
    + destruct Hrun as [-> _];
        [repeat constructor; apply read_error_issue_well_formed|].
      cbn [report_of report_issues]. rewrite Hi. split.
      * repeat constructor; rewrite ?dom_read_error_issue; try done.
      * eexists. split; [reflexivity|]. by dict_lookup.
    + apply Hrun. repeat constructor; apply read_error_issue_well_formed.
  - destruct (monitor_logs_content env text (emit (fresh dir) banner) H)
      as (st1 & Hmon & Hi & _).
    pose proof (run_test_report env dir st1 Hmon) as Hrun.
    rewrite Hi in Hrun.
    destruct (run_test env (fresh dir)) as [[report|e] st'].
    + destruct Hrun as [-> _]; [apply content_issues_well_formed|].
      cbn [report_of report_issues]. rewrite Hi.
      split; [|by rewrite appended_analyze_log_content].
      apply Forall_forall.
      intros i (l & k & m & _ & _ & ->)%elem_of_content_issues.
      rewrite dom_signature_issue. split; [apply synthetic_in_signature|done].
    + apply Hrun, content_issues_well_formed.
Qed.

(** C2 as stated fails: the issue a missing artifact leaves in the report
    has no ["mod"] and no ["timestamp"], and so not the fields of the
    issue a matched line leaves. *)
Lemma missing_log_issue_lacks_fields :
  ∃ report st i report' st' j,
    run_test (example_env Absent true) (fresh "/mc") = (Ok report, st)
    ∧ report_issues report = [i]
    ∧ run_test (example_env (Content "Failed to load mod: jei") true)
        (fresh "/mc") = (Ok report', st')
    ∧ report_issues report' = [j]
    ∧ i !! "mod" = None
    ∧ i !! "timestamp" = None
    ∧ is_Some (j !! "mod")
    ∧ is_Some (j !! "timestamp")
    ∧ dom i ≠ dom j.
Proof.
  exists (report_of (example_env Absent true)
            (snd (monitor_logs (example_env Absent true)
                    (emit (fresh "/mc") banner)))).
  eexists. exists (missing_issue "/mc/logs/latest.log").
  exists (report_of (example_env (Content "Failed to load mod: jei") true)
            (snd (monitor_logs
                    (example_env (Content "Failed to load mod: jei") true)
                    (emit (fresh "/mc") banner)))).
  eexists.
  exists (signature_issue (example_env Absent true)
            "Failed to load mod: jei" "mod_loading_error" 0).
  split; [vm_compute; reflexivity|]. split; [vm_compute; reflexivity|].
  split; [vm_compute; reflexivity|]. split; [vm_compute; reflexivity|].
  split; [by dict_lookup|]. split; [by dict_lookup|].
  split; [rewrite signature_issue_mod; eauto|].
  split; [rewrite signature_issue_timestamp; eauto|].
  rewrite dom_missing_issue, dom_signature_issue.
  apply (bool_decide_unpack (synthetic_fields ≠ signature_fields)).
  vm_compute. exact I.
Qed.

(** ** Success detection *)

Lemma existsb_success text :
  existsb (fun p => search p text) success_patterns = true
  ↔ ∃ p, p ∈ success_patterns ∧ search p text = true.
Proof.
  rewrite existsb_exists. split; intros (p & Hp & ?); exists p;
    (split; [|done]); by apply list_elem_of_In.
Qed.

(** C4. For a readable log artifact, the report of a run that can be saved
    has [startup_successful] true exactly when some success pattern is
    found in the whole text, and its issues are those
    [analyze_log_content] appends for that text, found or not.  Both can
    hold at once: [example_log] is reported as started with one issue. *)
Theorem success_iff_pattern_found (env : Env) (dir text : string) :
  log_artifact env = Content text →
  match run_test env (fresh dir) with
  | (Ok report, _) =>
      (report_startup_successful report = true
       ↔ ∃ p, p ∈ success_patterns ∧ search p text = true)
      ∧ report_issues report
        = appended (analyze_log_content env text) (fresh dir)
  | (Raise _, _) => dir_writable env = false
  end
  ∧ match run_test (example_env (Content example_log) true) (fresh dir) with
    | (Ok report, _) =>
        report_startup_successful report = true
        ∧ total_issues report = 1
        ∧ critical_issues report = 1
    | (Raise _, _) => False
    end.
Proof.
  intros H. split.
  - destruct (monitor_logs_content env text (emit (fresh dir) banner) H)
      as (st1 & Hmon & Hi & _ & Hs).
    pose proof (run_test_report env dir st1 Hmon) as Hrun.
    rewrite Hi in Hrun.
    destruct (run_test env (fresh dir)) as [[report|e] st'].
    + destruct Hrun as [-> _]; [apply content_issues_well_formed|].
      cbn [report_of report_issues report_startup_successful].
      rewrite Hi, Hs, appended_analyze_log_content.
      split; [|reflexivity]. cbn [orb emit fresh self init startup_successful].
      apply existsb_success.
    + apply Hrun, content_issues_well_formed.
  - set (env' := example_env (Content example_log) true).
    destruct (monitor_logs_content env' example_log
                (emit (fresh dir) banner) eq_refl)
      as (st1 & Hmon & Hi & _ & Hs).
    pose proof (run_test_report env' dir st1 Hmon) as Hrun.
    rewrite Hi in Hrun.
    destruct (run_test env' (fresh dir)) as [[report|e] st'].
    + destruct Hrun as [-> _]; [apply content_issues_well_formed|].
      cbn [report_of report_issues report_startup_successful total_issues
           critical_issues].
      rewrite Hi, Hs. split; [|split]; vm_compute; reflexivity.
    + assert (dir_writable env' = false) as Hw
        by apply Hrun, content_issues_well_formed.
      discriminate Hw.
Qed.

Lemma success_iff_pattern_found_witness :
  let env := example_env (Content "Client successfully started") true in
  match run_test env (fresh "/mc") with
  | (Ok report, _) =>
      (report_startup_successful report = true
       ↔ ∃ p, p ∈ success_patterns
              ∧ search p "Client successfully started" = true)
      ∧ report_issues report
        = appended (analyze_log_content env "Client successfully started")
            (fresh "/mc")
  | (Raise _, _) => dir_writable env = false
  end
  ∧ match run_test (example_env (Content example_log) true) (fresh "/mc") with
    | (Ok report, _) =>
        report_startup_successful report = true
        ∧ total_issues report = 1
        ∧ critical_issues report = 1
    | (Raise _, _) => False
    end.
Proof.
  intros env.
  apply (success_iff_pattern_found env "/mc" "Client successfully started").
  reflexivity.
Defined.

(** ** The kind ["file_not_found"] *)

Lemma stamp_elem env line kinds n k :
  k ∈ kinds → ∃ m, signature_issue env line k m ∈ stamp env line kinds n.
Proof.
  revert n; induction kinds as [|k' kinds IH]; intros n Hk.
  - by apply elem_of_nil in Hk.
  - cbn [stamp]. apply elem_of_cons in Hk as [-> | Hk].
    + exists n. by left.
    + destruct (IH (S n) Hk) as (m & ?). exists m. by right.
Qed.

Lemma content_issues_elem env lines n line k :
  line ∈ lines → matches k line →
  ∃ m, signature_issue env line k m ∈ content_issues env lines n.
Proof.
  intros Hl Hk%matches_matching.
  revert n; induction lines as [|l lines IH]; intros n.
  - by apply elem_of_nil in Hl.
  - cbn [content_issues]. apply elem_of_cons in Hl as [<- | Hl].
    + destruct (stamp_elem env line _ n k Hk) as (m & ?).
      exists m. apply elem_of_app. by left.
    + destruct (IH Hl (n + length (line_issues env l n))) as (m & ?).
      exists m. apply elem_of_app. by right.
Qed.

(** C10. A line of the log that matches the [file_not_found] signature
    puts an issue of kind ["file_not_found"] and severity ["warning"] in
    the report, which then counts at least one warning; the same run with
    the artifact missing reports one issue of the same kind with severity
    ["critical"]. *)
Theorem file_not_found_either_severity (env : Env) (dir text line : string) :
  log_artifact env = Content text →
  dir_writable env = true →
  line ∈ Text.split_lines text →
  matches "file_not_found" line →
  (∃ report st i,
      run_test env (fresh dir) = (Ok report, st)
      ∧ i ∈ report_issues report
      ∧ i !! "type" = Some "file_not_found"
      ∧ i !! "severity" = Some "warning"
      ∧ 1 ≤ warning_issues report)
  ∧ (∃ report st j,
      run_test (with_artifact env Absent) (fresh dir) = (Ok report, st)
      ∧ report_issues report = [j]
      ∧ j !! "type" = Some "file_not_found"
      ∧ j !! "severity" = Some "critical").
Proof.
  intros H Hw Hline Hmatch. split.
  - destruct (monitor_logs_content env text (emit (fresh dir) banner) H)
      as (st1 & Hmon & Hi & _).
    pose proof (run_test_report env dir st1 Hmon) as Hrun.
    rewrite Hi in Hrun.
    destruct (run_test env (fresh dir)) as [[report|e] st'].
    + destruct Hrun as [-> _]; [apply content_issues_well_formed|].
      destruct (content_issues_elem env _ (clock (emit (fresh dir) banner))
                  _ _ Hline Hmatch) as (m & Hin).
      exists (report_of env st1), st',
        (signature_issue env line "file_not_found" m).
      cbn [report_of report_issues warning_issues]. rewrite Hi.
      split; [done|]. split; [exact Hin|].
      split; [apply signature_issue_type|].
      split; [apply signature_issue_severity|].
      match goal with
      | |- 1 ≤ length (filter ?P ?l) =>
          assert (signature_issue env line "file_not_found" m ∈ filter P l)
            as Hf
      end.
      { apply list_elem_of_filter. split; [|exact Hin].
        apply signature_issue_severity. }
      destruct (filter _ _); [by apply elem_of_nil in Hf | simpl; lia].
    + rewrite Hw in Hrun. discriminate Hrun.
      apply content_issues_well_formed.
  - destruct (monitor_logs_absent (with_artifact env Absent)
                (emit (fresh dir) banner) eq_refl)
      as (st1 & Hmon & Hi & _).
    pose proof (run_test_report _ dir st1 Hmon) as Hrun.
    rewrite Hi in Hrun.
    destruct (run_test (with_artifact env Absent) (fresh dir))
      as [[report|e] st'].
    + destruct Hrun as [-> _];
        [repeat constructor; apply missing_issue_well_formed|].
      do 3 eexists. split; [reflexivity|].
      cbn [report_of report_issues]. rewrite Hi.
      split; [reflexivity|]. split; by dict_lookup.
    + cbn [with_artifact dir_writable] in Hrun. rewrite Hw in Hrun.
      discriminate Hrun. repeat constructor; apply missing_issue_well_formed.
Qed.

Lemma file_not_found_either_severity_witness :
  let env := example_env (Content example_missing_file_log) true in
  (∃ report st i,
      run_test env (fresh "/mc") = (Ok report, st)
      ∧ i ∈ report_issues report
      ∧ i !! "type" = Some "file_not_found"
      ∧ i !! "severity" = Some "warning"
      ∧ 1 ≤ warning_issues report)
  ∧ (∃ report st j,
      run_test (with_artifact env Absent) (fresh "/mc") = (Ok report, st)
      ∧ report_issues report = [j]
      ∧ j !! "type" = Some "file_not_found"
      ∧ j !! "severity" = Some "critical").
Proof.
  intros env.
  apply (file_not_found_either_severity env "/mc" example_missing_file_log
           "java.io.FileNotFoundException: config/jei.toml").
  - reflexivity.
  - reflexivity.
  - vm_compute. right. left.
  - apply matches_matching. vm_compute. left.
Defined.

(** ** The warnings block of the summary *)

(** C7. Let [warnings] be the warning issues [generate_report] selects.
    The warnings block is a header, one entry for each of the first five
    warnings, and, when there are more than five, one line
    ["  ... and N more warnings"] with [N = len(warnings) - 5]; with five
    or fewer, every warning has its entry and there is no such line (and
    no block at all without warnings).  The console of [generate_report]
    ends with this block and the line naming the saved file. *)
Theorem warnings_cut_after_five (env : Env) (st : State)
    (warnings : list Issue) :
  Forall well_formed (issues (self st)) →
  dir_writable env = true →
  select "severity" "warning" (issues (self st)) = Ok warnings →
  ∃ entries block before report st',
    Forall2 (fun i e => issue_line i = Ok e) (take 5 warnings) entries
    ∧ emits (print_warnings warnings) tt block
    ∧ generate_report env st = (Ok report, st')
    ∧ stdout st' = stdout st ++ before ++ block ++ [saved_line env st]
    ∧ (5 < length warnings →
       length entries = 5
       ∧ block = warnings_header :: entries
                   ++ [more_warnings (length warnings - 5)])
    ∧ (length warnings ≤ 5 →
       Forall2 (fun i e => issue_line i = Ok e) warnings entries
       ∧ block = match warnings with
                 | [] => []
                 | _ => warnings_header :: entries
                 end).
Proof.
  intros Hwf W Hsel. rewrite select_severity in Hsel by done.
  injection Hsel as Hsel.
  assert (Forall well_formed warnings) as Hww
    by (rewrite <- Hsel; by apply Forall_filtered).
  destruct (print_warnings_run warnings Hww) as (entries & HF & Hb).
  destruct (generate_report_console env st Hwf W) as (before & Hrun).
  rewrite Hsel in Hrun. specialize (Hrun _ Hb).
  exists entries, (warnings_block warnings entries), before.
  do 2 eexists. split; [exact HF|]. split; [exact Hb|].
  split; [exact Hrun|]. split; [reflexivity|].
  pose proof (Forall2_length _ _ _ HF) as Hlen. rewrite length_take in Hlen.
  unfold warnings_block. split.
  - intros Hgt. split; [lia|].
    destruct warnings; [simpl in Hgt; lia|].
    by rewrite (proj2 (Nat.ltb_lt _ _) Hgt).
  - intros Hle. rewrite take_ge in HF by done. split; [exact HF|].
    destruct warnings; [done|].
    rewrite (proj2 (Nat.ltb_ge _ _) Hle). by rewrite app_nil_r.
Qed.

Lemma warnings_cut_after_five_witness :
  let env := example_env (Content example_warnings_log) true in
  let st := snd (monitor_logs env (fresh "/mc")) in
  let warnings :=
    filter (fun i : Issue => i !! "severity" = Some "warning")
      (issues (self st)) in
  length warnings = 7
  ∧ ∃ entries block before report st',
      Forall2 (fun i e => issue_line i = Ok e) (take 5 warnings) entries
      ∧ emits (print_warnings warnings) tt block
      ∧ generate_report env st = (Ok report, st')
      ∧ stdout st' = stdout st ++ before ++ block ++ [saved_line env st]
      ∧ (5 < length warnings →
         length entries = 5
         ∧ block = warnings_header :: entries
                     ++ [more_warnings (length warnings - 5)])
      ∧ (length warnings ≤ 5 →
         Forall2 (fun i e => issue_line i = Ok e) warnings entries
         ∧ block = match warnings with
                   | [] => []
                   | _ => warnings_header :: entries
                   end).
Proof.
  intros env st warnings. split; [vm_compute; reflexivity|].
  assert (Forall well_formed (issues (self st))) as Hwf.
  { destruct (monitor_logs_total env (fresh "/mc")) as (r & st1 & E & H & _);
      [constructor|].
    subst st. by rewrite E. }
  apply (warnings_cut_after_five env st warnings Hwf).
  - reflexivity.
  - by apply select_severity.
Defined.

(** * Further properties *)

(** ** [monitor_logs] as a state change *)

Lemma check_success_exact patterns content st :
  check_success patterns content st
  = (Ok tt,
     if existsb (fun p => search p content) patterns
     then emit (started st) [success_line] else st).
Proof.
  induction patterns as [|p ps IH]; [done|].
  cbn [check_success existsb]. destruct (search p content); [done|]. apply IH.
Qed.

Lemma monitor_logs_exact env st :
  monitor_logs env st
  = (match log_artifact env with
     | Inaccessible err => Raise (OSError err)
     | _ => Ok tt
     end,
     match log_artifact env with
     | Absent =>
         push (emit st [reading_line]) (missing_issue (log_file (self st)))
     | Inaccessible _ => emit st [reading_line]
     | Unreadable err =>
         push (emit st [reading_line]) (read_error_issue (OSError err))
     | Content text =>
         let st1 := add_issues (emit st [reading_line])
                      (content_issues env (Text.split_lines text) (clock st)) in
         if success_found text then emit (started st1) [success_line] else st1
     end).
Proof.
  unfold monitor_logs.
  rewrite (bind_ok _ _ _ _ _ (print_emit _ _)).
  rewrite (bind_ok _ _ _ _ _ eq_refl : bind get_self _ _ = _).
  unfold log_exists.
  destruct (log_artifact env) as [|err|err|text] eqn:H; [done|done| |].
  - rewrite (bind_ok _ _ _ _ _ eq_refl : bind (ret true) _ _ = _).
    cbn [negb]. unfold try_except, read_log. rewrite H.
    by rewrite (bind_raise _ _ _ _ _ eq_refl : bind (raise _) _ _ = _).
  - rewrite (bind_ok _ _ _ _ _ eq_refl : bind (ret true) _ _ = _).
    cbn [negb]. unfold try_except, read_log. rewrite H.
    rewrite (bind_ok _ _ _ _ _ eq_refl : bind (ret text) _ _ = _).
    rewrite (bind_ok _ _ _ _ _ (analyze_log_content_run _ _ _)).
    by rewrite check_success_exact.
Qed.

Lemma monitor_logs_issues env st :
  ∃ new,
    issues (self (snd (monitor_logs env st))) = issues (self st) ++ new
    ∧ Forall well_formed new
    ∧ new = match log_artifact env with
            | Absent => [missing_issue (log_file (self st))]
            | Inaccessible _ => []
            | Unreadable err => [read_error_issue (OSError err)]
            | Content text =>
                content_issues env (Text.split_lines text) (clock st)
            end.
Proof.
  rewrite monitor_logs_exact. cbn [snd].
  destruct (log_artifact env) as [|err|err|text].
  - eexists; split; [reflexivity|]. split; [|done].
    repeat constructor; apply missing_issue_well_formed.
  - exists []. by rewrite app_nil_r.
  - eexists; split; [reflexivity|]. split; [|done].
    repeat constructor; apply read_error_issue_well_formed.
  - eexists; split; [|split; [apply content_issues_well_formed|done]].
    cbv zeta. by destruct (success_found text).
Qed.

(** X2. [monitor_logs] raises only when [exists()] itself raises; it has
    then printed its first line and done nothing else.  In every other
    case it returns, having appended to the issues it found: one issue
    for a missing or an unreadable log.  It never clears the success flag
    and sets it only for a readable log in which a success pattern is
    found, writes no file, and prints its first line, followed by the
    success line exactly when a success pattern is found (once, however
    many patterns are found). *)
Theorem monitor_logs_only_adds (env : Env) (st : State) :
  ∃ r st' new,
    monitor_logs env st = (r, st')
    ∧ match log_artifact env with
      | Inaccessible err => r = Raise (OSError err) ∧ new = []
      | Absent | Unreadable _ => r = Ok tt ∧ length new = 1
      | Content _ => r = Ok tt
      end
    ∧ issues (self st') = issues (self st) ++ new
    ∧ (startup_successful (self st) = true →
       startup_successful (self st') = true)
    ∧ (startup_successful (self st') = true →
       startup_successful (self st) = true
       ∨ ∃ text, log_artifact env = Content text ∧ success_found text = true)
    ∧ files st' = files st
    ∧ log_file (self st') = log_file (self st)
    ∧ stdout st'
      = stdout st ++ reading_line
          :: match log_artifact env with
             | Content text =>
                 if success_found text then [success_line] else []
             | _ => []
             end.
Proof.
  rewrite monitor_logs_exact.
  destruct (log_artifact env) as [|err|err|text].
  - do 3 eexists. split; [reflexivity|]. cbn.
    repeat split; auto; by rewrite <- ?app_assoc.
  - exists (Raise (OSError err)), (emit st [reading_line]), [].
    split; [reflexivity|]. cbn. rewrite app_nil_r. repeat split; auto.
  - do 3 eexists. split; [reflexivity|]. cbn.
    repeat split; auto; by rewrite <- ?app_assoc.
  - cbv zeta. destruct (success_found text) eqn:E.
    + do 3 eexists. split; [reflexivity|]. cbn.
      repeat split; eauto; by rewrite <- ?app_assoc.
    + do 3 eexists. split; [reflexivity|]. cbn.
      repeat split; auto; by rewrite <- ?app_assoc.
Qed.

Lemma monitor_logs_pair env st :
  monitor_logs env st = (fst (monitor_logs env st), snd (monitor_logs env st)).
Proof. by destruct (monitor_logs env st). Qed.

Lemma monitor_logs_well_formed env st :
  Forall well_formed (issues (self st)) →
  Forall well_formed (issues (self (snd (monitor_logs env st)))).
Proof.
  intros Hwf. destruct (monitor_logs_issues env st) as (new & -> & Hnew & _).
  by apply Forall_app.
Qed.

Lemma monitor_logs_frame env st :
  log_file (self (snd (monitor_logs env st))) = log_file (self st)
  ∧ minecraft_dir (self (snd (monitor_logs env st))) = minecraft_dir (self st)
  ∧ files (snd (monitor_logs env st)) = files st.
Proof.
  rewrite monitor_logs_exact. cbn [snd].
  destruct (log_artifact env) as [|err|err|text]; [done|done|done|].
  cbv zeta. by destruct (success_found text).
Qed.

Lemma monitor_logs_console env st :
  ∃ out,
    stdout (snd (monitor_logs env st)) = stdout st ++ out
    ∧ files (snd (monitor_logs env st)) = files st.
Proof.
  rewrite monitor_logs_exact. cbn [snd].
  destruct (log_artifact env) as [|err|err|text]; [by eexists..|].
  cbv zeta. destruct (success_found text); eexists; (split; [|done]); cbn.
  - by rewrite <- app_assoc.
  - done.
Qed.

(** A run that can save its report, from any state with well-formed
    issues: the report and the state it leaves. *)
Lemma run_test_exact env st :
  Forall well_formed (issues (self st)) →
  dir_writable env = true →
  ∃ lines,
    run_test env st
    = (Ok (report_of env (snd (monitor_logs env (emit st banner)))),
       {| self := self (snd (monitor_logs env (emit st banner)));
          clock := S (S (clock (snd (monitor_logs env (emit st banner)))));
          stdout := stdout (snd (monitor_logs env (emit st banner))) ++ lines;
          files := files (snd (monitor_logs env (emit st banner)))
                   ++ [(report_file_of env
                          (snd (monitor_logs env (emit st banner))),
                        report_of env
                          (snd (monitor_logs env (emit st banner))))] |}).
Proof.
  intros Hwf W.
  rewrite (run_test_from _ _ _ _ (monitor_logs_pair env (emit st banner))).
  pose proof (generate_report_run env
                (snd (monitor_logs env (emit st banner)))) as Hgen.
  rewrite W in Hgen. apply Hgen. by apply monitor_logs_well_formed.
Qed.

(** X1. When the log exists but cannot be read, a run of a fresh tester
    that can save its report returns one with exactly one issue: kind
    ["log_read_error"], severity ["critical"], the error text in the
    message, no ["mod"]; [startup_successful] is false. *)
Theorem unreadable_log_single_issue (env : Env) (dir err : string) :
  log_artifact env = Unreadable err →
  match run_test env (fresh dir) with
  | (Ok report, _) =>
      ∃ i, report_issues report = [i]
        ∧ i !! "type" = Some "log_read_error"
        ∧ i !! "message" = Some ("Error reading log file: " +:+ err)
        ∧ i !! "severity" = Some "critical"
        ∧ i !! "mod" = None
        ∧ total_issues report = 1
        ∧ critical_issues report = 1
        ∧ warning_issues report = 0
        ∧ report_startup_successful report = false
  | (Raise _, _) => dir_writable env = false
  end.
Proof.
  intros H.
  destruct (monitor_logs_unreadable env err (emit (fresh dir) banner) H) as
    (st1 & Hmon & Hi & _ & Hs).
  assert (Forall well_formed (issues (self st1))) as Hwf.
  { rewrite Hi. repeat constructor; apply read_error_issue_well_formed. }
  pose proof (run_test_report env dir st1 Hmon Hwf) as Hrun.
  destruct (run_test env (fresh dir)) as [[report|e] st']; [|done].
  destruct Hrun as [-> _].
  cbn [report_of total_issues critical_issues warning_issues report_issues
       report_startup_successful].
  rewrite Hi, Hs. eexists. split; [reflexivity|].
  repeat split; try by dict_lookup.
Qed.

Lemma unreadable_log_single_issue_witness :
  match run_test (example_env (Unreadable "Permission denied") true)
          (fresh "/mc") with
  | (Ok report, _) =>
      ∃ i, report_issues report = [i]
        ∧ i !! "type" = Some "log_read_error"
        ∧ i !! "message"
          = Some ("Error reading log file: " +:+ "Permission denied")
        ∧ i !! "severity" = Some "critical"
        ∧ i !! "mod" = None
        ∧ total_issues report = 1
        ∧ critical_issues report = 1
        ∧ warning_issues report = 0
        ∧ report_startup_successful report = false
  | (Raise _, _) =>
      dir_writable (example_env (Unreadable "Permission denied") true) = false
  end.
Proof.
  apply (unreadable_log_single_issue
           (example_env (Unreadable "Permission denied") true) "/mc"
           "Permission denied").
  reflexivity.
Defined.

Lemma same_severity_count (v : string) (l1 l2 : list Issue) :
  Forall2 same_but_timestamp l1 l2 →
  length (filter (fun i : Issue => i !! "severity" = Some v) l1)
  = length (filter (fun i : Issue => i !! "severity" = Some v) l2).
Proof.
  induction 1 as [|i j l1 l2 Hij _ IH]; [done|].
  rewrite !filter_cons, <- (Hij "severity") by done.
  destruct (decide _); simpl; by rewrite IH.
Qed.

Lemma monitor_logs_again env st1 st2 :
  log_file (self st1) = log_file (self st2) →
  ∃ new1 new2,
    issues (self (snd (monitor_logs env st1))) = issues (self st1) ++ new1
    ∧ issues (self (snd (monitor_logs env st2))) = issues (self st2) ++ new2
    ∧ Forall2 same_but_timestamp new1 new2.
Proof.
  intros Hlog.
  destruct (monitor_logs_issues env st1) as (new1 & H1 & _ & E1).
  destruct (monitor_logs_issues env st2) as (new2 & H2 & _ & E2).
  exists new1, new2. split; [done|]. split; [done|].
  rewrite E1, E2, Hlog. destruct (log_artifact env).
  - repeat constructor; by intros f _.
  - constructor.
  - repeat constructor; by intros f _.
  - apply content_issues_same.
Qed.

(** X3. [self.issues] is never cleared: a second [run_test] on the same
    tester, with the same log, reports the issues of the first run followed
    by as many again, so every count doubles, and writes a second file. *)
Theorem second_run_accumulates (env : Env) (dir : string) :
  dir_writable env = true →
  ∃ r1 st1 r2 st2,
    run_test env (fresh dir) = (Ok r1, st1)
    ∧ run_test env st1 = (Ok r2, st2)
    ∧ report_issues r1 `prefix_of` report_issues r2
    ∧ total_issues r2 = 2 * total_issues r1
    ∧ critical_issues r2 = 2 * critical_issues r1
    ∧ warning_issues r2 = 2 * warning_issues r1
    ∧ length (files st2) = 2.
Proof.
  intros W.
  destruct (run_test_exact env (fresh dir)) as (lines1 & E1);
    [constructor | done |].
  set (stm1 := snd (monitor_logs env (emit (fresh dir) banner))) in *.
  assert (Forall well_formed (issues (self stm1))) as Hwf1
    by (apply monitor_logs_well_formed; constructor).
  match type of E1 with _ = (_, ?s) => set (st1 := s) in * end.
  destruct (run_test_exact env st1) as (lines2 & E2); [done | done |].
  set (stm2 := snd (monitor_logs env (emit st1 banner))) in *.
  do 4 eexists. split; [exact E1|]. split; [exact E2|].
  destruct (monitor_logs_again env (emit (fresh dir) banner) (emit st1 banner))
    as (new1 & new2 & H1 & H2 & Hsame).
  { change (log_file (self (fresh dir)) = log_file (self stm1)).
    unfold stm1. by rewrite (proj1 (monitor_logs_frame _ _)). }
  fold stm1 in H1. fold stm2 in H2. cbn [emit self fresh init issues] in H1.
  cbn [emit self] in H2. subst st1. cbn [self] in H2.
  cbn [report_of report_issues total_issues critical_issues warning_issues
       files].
  rewrite H2, H1. cbn [app].
  pose proof (Forall2_length _ _ _ Hsame) as Hlen.
  split; [by eexists|]. rewrite !filter_app, !length_app.
  rewrite <- (same_severity_count "critical" _ _ Hsame).
  rewrite <- (same_severity_count "warning" _ _ Hsame).
  repeat split; try lia.
  unfold stm2. rewrite (proj2 (proj2 (monitor_logs_frame _ _))).
  cbn [emit files]. unfold stm1.
  by rewrite length_app, (proj2 (proj2 (monitor_logs_frame _ _))).
Qed.

Lemma second_run_accumulates_witness :
  ∃ r1 st1 r2 st2,
    run_test (example_env (Content example_log) true) (fresh "/mc")
    = (Ok r1, st1)
    ∧ run_test (example_env (Content example_log) true) st1 = (Ok r2, st2)
    ∧ report_issues r1 `prefix_of` report_issues r2
    ∧ total_issues r2 = 2 * total_issues r1
    ∧ critical_issues r2 = 2 * critical_issues r1
    ∧ warning_issues r2 = 2 * warning_issues r1
    ∧ length (files st2) = 2.
Proof.
  apply (second_run_accumulates (example_env (Content example_log) true) "/mc").
  reflexivity.
Defined.

(** ** The order and the content of the issues *)

Lemma stamp_summary env line kinds n :
  (fun i : Issue => (i !! "type", i !! "message")) <$> stamp env line kinds n
  = (fun k => (Some k, Some (Text.strip line))) <$> kinds.
Proof.
  revert n; induction kinds as [|k kinds IH]; intros n; [done|].
  cbn [stamp]. rewrite !fmap_cons, IH.
  by rewrite signature_issue_type, signature_issue_message.
Qed.

Lemma content_issues_summary env lines n :
  (fun i : Issue => (i !! "type", i !! "message"))
    <$> content_issues env lines n
  = concat (line_summary <$> lines).
Proof.
  revert n; induction lines as [|line lines IH]; intros n; [done|].
  cbn [content_issues]. rewrite fmap_app, IH, fmap_cons. cbn [concat].
  f_equal. apply stamp_summary.
Qed.

(** X4. The issues are in the order of discovery: line after line of the
    text and, within a line, signature after signature of the table; each
    carries the kind of the signature and the stripped line. *)
Theorem issues_in_discovery_order (env : Env) (st : State) (content : string) :
  (fun i : Issue => (i !! "type", i !! "message"))
    <$> appended (analyze_log_content env content) st
  = concat (line_summary <$> Text.split_lines content).
Proof. rewrite appended_analyze_log_content. apply content_issues_summary. Qed.

Lemma content_issues_nil env lines n :
  content_issues env lines n = [] ↔
  ∀ line k, line ∈ lines → ¬ matches k line.
Proof.
  split.
  - intros Hnil line k Hl Hm.
    destruct (content_issues_elem env lines n line k Hl Hm) as (m & Hin).
    rewrite Hnil in Hin. by apply elem_of_nil in Hin.
  - intros Hno. destruct (content_issues env lines n) as [|i l] eqn:E; [done|].
    assert (i ∈ content_issues env lines n) as Hin by (rewrite E; by left).
    apply elem_of_content_issues in Hin as (line & k & m & Hl & Hk & _).
    exfalso. apply (Hno line k Hl). by apply matches_matching.
Qed.

(** X5. For a readable log, the report counts no issue exactly when no
    line of the text matches any signature; an empty log is one such. *)
Theorem clean_log_no_issues (env : Env) (dir text : string) :
  log_artifact env = Content text →
  match run_test env (fresh dir) with
  | (Ok report, _) =>
      (total_issues report = 0
       ↔ ∀ line k, line ∈ Text.split_lines text → ¬ matches k line)
      ∧ (total_issues report = 0 → report_issues report = [])
  | (Raise _, _) => dir_writable env = false
  end.
Proof.
  intros H.
  destruct (monitor_logs_content env text (emit (fresh dir) banner) H)
    as (st1 & Hmon & Hi & _).
  pose proof (run_test_report env dir st1 Hmon) as Hrun. rewrite Hi in Hrun.
  destruct (run_test env (fresh dir)) as [[report|e] st'];
    [|apply Hrun, content_issues_well_formed].
  destruct Hrun as [-> _]; [apply content_issues_well_formed|].
  cbn [report_of total_issues report_issues]. rewrite Hi. cbn [app].
  rewrite <- (content_issues_nil env _ (clock (emit (fresh dir) banner))).
  split.
  - split; [by intros ?%nil_length_inv | by intros ->].
  - by intros ?%nil_length_inv.
Qed.

Lemma clean_log_no_issues_witness :
  let env := example_env (Content "") true in
  match run_test env (fresh "/mc") with
  | (Ok report, _) =>
      (total_issues report = 0
       ↔ ∀ line k, line ∈ Text.split_lines "" → ¬ matches k line)
      ∧ (total_issues report = 0 → report_issues report = [])
  | (Raise _, _) => dir_writable env = false
  end.
Proof.
  intros env. apply (clean_log_no_issues env "/mc" ""). reflexivity.
Defined.

(** ** Timestamps *)

Lemma stamp_timestamps env line kinds n :
  (fun i : Issue => i !! "timestamp") <$> stamp env line kinds n
  = (fun j => Some (isoformat env j)) <$> seq n (length kinds).
Proof.
  revert n; induction kinds as [|k kinds IH]; intros n; [done|].
  cbn [stamp length seq]. rewrite !fmap_cons, IH.
  by rewrite signature_issue_timestamp.
Qed.

Lemma content_issues_timestamps env lines n :
  (fun i : Issue => i !! "timestamp") <$> content_issues env lines n
  = (fun j => Some (isoformat env j))
      <$> seq n (length (content_issues env lines n)).
Proof.
  revert n; induction lines as [|line lines IH]; intros n; [done|].
  cbn [content_issues]. rewrite fmap_app, length_app, seq_app, fmap_app.
  f_equal; [|apply IH].
  unfold line_issues. rewrite stamp_timestamps. by rewrite !length_stamp.
Qed.

(** X6. [analyze_log_content] reads the clock once per issue: the
    [j]-th issue it appends carries the [j]-th reading after those made
    before, and the clock has advanced by the number of issues. *)
Theorem one_clock_read_per_issue (env : Env) (st : State) (content : string) :
  (fun i : Issue => i !! "timestamp")
    <$> appended (analyze_log_content env content) st
  = (fun j => Some (isoformat env j))
      <$> seq (clock st)
            (length (appended (analyze_log_content env content) st))
  ∧ clock (snd (analyze_log_content env content st))
    = clock st + length (appended (analyze_log_content env content) st).
Proof.
  rewrite appended_analyze_log_content, analyze_log_content_run.
  split; [apply content_issues_timestamps | done].
Qed.

(** ** The mod name *)



Lemma every_app p s t : every p (s +:+ t) = every p s && every p t.
Proof.
  induction s as [|a s IH]; [done|]. rewrite app_cons. simpl.
  by rewrite IH, andb_assoc.
Qed.

Lemma accepts_sep_class s :
  accepts sep_class s ↔ ∃ a, s = String a "" ∧ is_sep a = true.
Proof.
  unfold sep_class, is_sep. split.
  - inversion 1 as [| | | | | |? ? ? H1|? ? ? H2| |]; subst.
    + inversion H1 as [|? a Hc| | | | | | | |]; subst.
      exists a. by rewrite Hc.
    + inversion H2 as [| | |a Hc| | | | | |]; subst.
      exists a. by rewrite Hc, orb_true_r.
  - intros (a & -> & [Hc|Hs]%orb_true_iff).
    + apply accepts_alt_l. by constructor.
    + apply accepts_alt_r. by constructor.
Qed.

Lemma accepts_star_sep s :
  accepts (Star sep_class) s ↔ every is_sep s = true.
Proof.
  split.
  - intros Hacc. remember (Star sep_class) as r eqn:Er.
    induction Hacc as [| | | | | | | |r0|r0 t1 t2 Hne Hround _ Hrest IH];
      try discriminate; [done|].
    injection Er as ->. apply accepts_sep_class in Hround as (a & -> & Ha).
    rewrite app_cons, app_empty_l. simpl. by rewrite Ha, IH.
  - induction s as [|a s IH]; [constructor|].
    simpl. intros [Ha Hs]%andb_true_iff.
    change (String a s) with (String a "" +:+ s).
    apply accepts_star_round; [done| |by apply IH].
    apply accepts_sep_class. eauto.
Qed.

Lemma accepts_mod_prefix s :
  accepts (Seq (str "mod") (Plus sep_class)) s ↔
  ∃ mo seps, s = mo +:+ seps ∧ same_folded mo "mod"
             ∧ seps ≠ "" ∧ every is_sep seps = true.
Proof.
  split.
  - inversion 1 as [| | | | |? ? mo seps Hmo Hseps| | | |]; subst.
    exists mo, seps. split; [done|]. split; [by apply accepts_str|].
    inversion Hseps as [| | | | |? ? t1 t2 H1 H2| | | |]; subst.
    apply accepts_sep_class in H1 as (a & -> & Ha).
    apply accepts_star_sep in H2.
    rewrite app_cons, app_empty_l. simpl. by rewrite Ha, H2.
  - intros (mo & seps & -> & Hmo & Hne & Hseps).
    constructor; [by apply accepts_str|].
    destruct seps as [|a seps]; [done|]. simpl in Hseps.
    apply andb_true_iff in Hseps as [Ha Hs].
    change (String a seps) with (String a "" +:+ seps).
    constructor; [apply accepts_sep_class; eauto | by apply accepts_star_sep].
Qed.


Lemma mod_search_complete line m : names_mod line m → is_Some (mod_search line).
Proof.
  intros (pre & mo & seps & rest & -> & Hmo & Hne & Hseps & Hm & Hw & _).
  unfold mod_search. rewrite <- (app_assoc_string mo seps).
  apply scan_complete.
  - apply accepts_mod_prefix. by exists mo, seps.
  - destruct m as [|a m]; [done|]. rewrite app_cons. simpl in Hw |- *.
    apply andb_true_iff in Hw as [-> _]. eauto.
Qed.




(** ** The message *)

Lemma rev_app_app s t : String.rev_app s t = String.rev s +:+ t.
Proof.
  unfold String.rev. revert t; induction s as [|a s IH]; intros t; [done|].
  simpl. rewrite (IH (String a t)), (IH (String a "")).
  by rewrite app_assoc_string.
Qed.

Lemma rev_cons a s : String.rev (String a s) = String.rev s +:+ String a "".
Proof. unfold String.rev at 1. simpl. apply rev_app_app. Qed.

Lemma rev_append s t : String.rev (s +:+ t) = String.rev t +:+ String.rev s.
Proof.
  induction s as [|a s IH].
  - by rewrite app_empty_l, app_empty_r.
  - by rewrite app_cons, !rev_cons, IH, app_assoc_string.
Qed.

Lemma rev_rev s : String.rev (String.rev s) = s.
Proof.
  induction s as [|a s IH]; [done|]. by rewrite rev_cons, rev_append, IH.
Qed.

Lemma every_rev p s : every p (String.rev s) = every p s.
Proof.
  induction s as [|a s IH]; [done|]. rewrite rev_cons, every_app, IH.
  simpl. by rewrite andb_true_r, andb_comm.
Qed.

Lemma lstrip_split s :
  ∃ l, s = l +:+ Text.lstrip s ∧ every Text.is_space l = true
       ∧ ∀ a t, Text.lstrip s = String a t → Text.is_space a = false.
Proof.
  induction s as [|a s (l & IH & Hl & Hhead)].
  - exists "". repeat split. by intros a t.
  - simpl. destruct (Text.is_space a) eqn:E.
    + exists (String a l). rewrite app_cons, <- IH. simpl. by rewrite E.
    + exists "". repeat split. by intros ? ? [= <- _].
Qed.

Lemma rstrip_split s :
  ∃ r, s = Text.rstrip s +:+ r ∧ every Text.is_space r = true
       ∧ ∀ a t, String.rev (Text.rstrip s) = String a t →
                Text.is_space a = false.
Proof.
  unfold Text.rstrip.
  destruct (lstrip_split (String.rev s)) as (l & Hs & Hl & Hhead).
  exists (String.rev l). split; [|split].
  - by rewrite <- rev_append, <- Hs, rev_rev.
  - by rewrite every_rev.
  - intros a t. rewrite rev_rev. apply Hhead.
Qed.

Lemma strip_split s :
  ∃ l r, s = l +:+ Text.strip s +:+ r
         ∧ every Text.is_space l = true ∧ every Text.is_space r = true
         ∧ trimmed (Text.strip s).
Proof.
  unfold Text.strip.
  destruct (lstrip_split s) as (l & Hs & Hl & Hhead).
  destruct (rstrip_split (Text.lstrip s)) as (r & Hy & Hr & Hlast).
  exists l, r. rewrite <- Hy. repeat split; try done.
  intros a t Ht. apply (Hhead a (t +:+ r)). by rewrite Hy, Ht.
Qed.

Lemma split_lines_no_newline s :
  Forall (fun line => every (fun a => negb (Text.is_newline a)) line = true)
    (Text.split_lines s).
Proof.
  induction s as [|a s IH]; [by repeat constructor|]. simpl.
  destruct (Text.is_newline a) eqn:E; [by constructor|].
  destruct (Text.split_lines s) as [|l ls];
    [repeat constructor; simpl; by rewrite E|].
  apply Forall_cons in IH as [Hl Hls]. constructor; [|done].
  simpl. by rewrite E, Hl.
Qed.

(** X8. The ["message"] of an issue is a line of the text without the
    white space at its two ends: nothing else is removed, no white space
    is left at either end, and it has no line feed. *)
Theorem message_is_trimmed_line (env : Env) (st : State) (content : string) :
  Forall (fun i : Issue =>
            ∃ line l r,
              line ∈ Text.split_lines content
              ∧ i !! "message" = Some (Text.strip line)
              ∧ line = l +:+ Text.strip line +:+ r
              ∧ every Text.is_space l = true
              ∧ every Text.is_space r = true
              ∧ trimmed (Text.strip line)
              ∧ every (fun a => negb (Text.is_newline a)) (Text.strip line)
                = true)
    (appended (analyze_log_content env content) st).
Proof.
  rewrite appended_analyze_log_content. apply Forall_forall.
  intros i (line & k & n & Hl & _ & ->)%elem_of_content_issues.
  destruct (strip_split line) as (l & r & Hs & ? & ? & Ht).
  exists line, l, r. rewrite signature_issue_message.
  do 6 (split; [done|]).
  pose proof (proj1 (Forall_forall _ _) (split_lines_no_newline content)
                line Hl) as Hn.
  cbv beta in Hn. rewrite Hs, !every_app in Hn.
  by apply andb_true_iff in Hn as [_ [? _]%andb_true_iff].
Qed.

(** ** The critical block *)

Lemma emits_print_critical i e :
  issue_line i = Ok e → emits (print_critical i) tt (e :: related_mod_line i).
Proof.
  intros E. unfold print_critical, related_mod_line. rewrite E.
  apply (emits_bind _ _ e tt [] _); [apply emits_lift|].
  apply (emits_bind _ _ tt tt [e] _); [apply emits_print|].
  destruct (i !! "mod"); [|apply emits_ret].
  case_bool_decide; [apply emits_print | apply emits_ret].
Qed.

Lemma emits_for_each_critical crit entries :
  Forall2 (fun i e => issue_line i = Ok e) crit entries →
  emits (for_each crit print_critical) tt
    (concat (zip_with (fun i e => e :: related_mod_line i) crit entries)).
Proof.
  induction 1 as [|i e crit entries Hi _ IH]; [apply emits_ret|].
  cbn [for_each zip_with concat].
  apply (emits_bind _ _ tt tt); [by apply emits_print_critical | done].
Qed.

Lemma issue_lines_exist l :
  Forall well_formed l →
  ∃ entries, Forall2 (fun i e => issue_line i = Ok e) l entries.
Proof.
  induction 1 as [|i l Hi _ (entries & IH)]; [by exists []|].
  destruct (issue_line_ok i Hi) as (e & He).
  exists (e :: entries). by constructor.
Qed.

(** X9. The critical block is not cut: after the header, every critical
    issue has its entry, in order, followed by a ["Related mod"] line
    exactly when the issue has a ["mod"] other than ["unknown"]. *)
Theorem critical_block_shows_all (crit : list Issue) :
  Forall well_formed crit →
  ∃ entries,
    Forall2 (fun i e => issue_line i = Ok e) crit entries
    ∧ emits (print_criticals crit) tt
        (match crit with
         | [] => []
         | _ => critical_header
                  :: concat (zip_with (fun i e => e :: related_mod_line i)
                               crit entries)
         end).
Proof.
  intros Hwf. destruct (issue_lines_exist crit Hwf) as (entries & HF).
  exists entries. split; [done|].
  unfold print_criticals. destruct crit as [|i crit]; [apply emits_ret|].
  apply (emits_bind _ _ tt tt [critical_header]); [apply emits_print|].
  by apply emits_for_each_critical.
Qed.

(** ** The summary as a whole *)

Lemma generate_report_exact env st cb wb :
  Forall well_formed (issues (self st)) →
  dir_writable env = true →
  emits (print_criticals (critical_of st)) tt cb →
  emits (print_warnings (warnings_of st)) tt wb →
  generate_report env st
  = (Ok (report_of env st),
     {| self := self st; clock := S (S (clock st));
        stdout := stdout st
                  ++ summary_head env st
                  ++ match issues (self st) with
                     | [] => []
                     | _ => [nl +:+ "ISSUES DETECTED:"; Text.repeat "-" 40]
                              ++ cb ++ wb
                     end
                  ++ [saved_line env st];
        files := files st ++ [(report_file_of env st, report_of env st)] |}).
Proof.
  intros Hwf W Hc Hb. unfold critical_of, warnings_of in *.
  enter_generate_report env st W.
  match goal with
  | |- ?m ?s = _ =>
      assert (emits m (report_of env st)
                (summary_head env st
                   ++ match issues (self st) with
                      | [] => []
                      | _ => [nl +:+ "ISSUES DETECTED:"; Text.repeat "-" 40]
                               ++ cb ++ wb
                      end ++ [saved_line env st])) as Hp
  end.
  { unfold summary_head.
    do 8 (apply (emits_bind _ _ tt _ [_]); [apply emits_print|]).
    apply (emits_bind _ _ tt).
    - destruct (issues (self st)) eqn:E; [apply emits_ret|].
      rewrite <- E in Hwf, Hc, Hb |- *.
      do 2 (apply (emits_bind _ _ tt _ [_]); [apply emits_print|]).
      eapply (emits_bind _ _ _ _ []); [apply emits_lift|].
      eapply (emits_bind _ _ _ _ []); [apply emits_lift|].
      by apply (emits_bind _ _ tt).
    - apply (emits_bind _ _ tt _ [_] []); [apply emits_print|apply emits_ret]. }
  rewrite Hp. reflexivity.
Qed.

Lemma generate_report_unwritable env st :
  Forall well_formed (issues (self st)) →
  dir_writable env = false →
  ∃ msg,
    generate_report env st
    = (Raise (OSError msg),
       {| self := self st; clock := S (S (clock st));
          stdout := stdout st; files := files st |}).
Proof.
  intros Hwf W. enter_generate_report env st W. eexists. reflexivity.
Qed.

(** X10. The console of [generate_report]: the eight lines down to the
    totals, then, only when there is an issue, the two lines of the
    ["ISSUES DETECTED"] header, the critical block and the warnings block,
    then the line naming the saved file.  A block without entries prints
    nothing, not even its header. *)
Theorem summary_layout (env : Env) (st : State) :
  Forall well_formed (issues (self st)) →
  dir_writable env = true →
  ∃ cb wb st',
    emits (print_criticals (critical_of st)) tt cb
    ∧ emits (print_warnings (warnings_of st)) tt wb
    ∧ generate_report env st = (Ok (report_of env st), st')
    ∧ stdout st'
      = stdout st
        ++ summary_head env st
        ++ match issues (self st) with
           | [] => []
           | _ => [nl +:+ "ISSUES DETECTED:"; Text.repeat "-" 40] ++ cb ++ wb
           end
        ++ [saved_line env st]
    ∧ (critical_of st = [] → cb = [])
    ∧ (warnings_of st = [] → wb = []).
Proof.
  intros Hwf W.
  destruct (prints_print_criticals (critical_of st)) as (cb & Hc);
    [by apply Forall_filtered|].
  destruct (prints_print_warnings (warnings_of st)) as (wb & Hb);
    [by apply Forall_filtered|].
  exists cb, wb. eexists. split; [done|]. split; [done|].
  split; [by apply generate_report_exact|]. split; [reflexivity|]. split.
  - intros E. rewrite E in Hc. apply (emits_inj _ _ _ _ Hc (emits_ret tt)).
  - intros E. rewrite E in Hb. apply (emits_inj _ _ _ _ Hb (emits_ret tt)).
Qed.

(** X11. The report is saved before the summary is printed: when the
    file cannot be created, [generate_report] raises without having
    printed a line, written a file or changed the tester. *)
Theorem unwritable_report_prints_nothing (env : Env) (st : State) :
  Forall well_formed (issues (self st)) →
  dir_writable env = false →
  ∃ msg st',
    generate_report env st = (Raise (OSError msg), st')
    ∧ stdout st' = stdout st
    ∧ files st' = files st
    ∧ self st' = self st.
Proof.
  intros Hwf W. destruct (generate_report_unwritable env st Hwf W) as (msg & E).
  do 2 eexists. split; [exact E|]. done.
Qed.

(** X12. [generate_report] writes exactly one file, in the Minecraft
    directory, whose content is the report it returns; the report carries
    the tester's issues, success flag and directory, and the tester is
    left as it was. *)
Theorem report_saved_is_report_returned (env : Env) (st : State) :
  Forall well_formed (issues (self st)) →
  dir_writable env = true →
  ∃ report st' stamp,
    generate_report env st = (Ok report, st')
    ∧ files st'
      = files st
        ++ [(path_join (minecraft_dir (self st))
               ("startup_test_report_" +:+ stamp +:+ ".json"), report)]
    ∧ self st' = self st
    ∧ report_issues report = issues (self st)
    ∧ report_startup_successful report = startup_successful (self st)
    ∧ minecraft_directory report = minecraft_dir (self st).
Proof.
  intros Hwf W. pose proof (generate_report_run env st Hwf) as Hgen.
  rewrite W in Hgen. destruct Hgen as (lines & E).
  do 3 eexists. split; [exact E|]. done.
Qed.

(** ** The verdict of [main] *)

Lemma recommend_critical report :
  0 < critical_issues report →
  emits (recommend report) tt
    [critical_message (critical_issues report); recommend_line].
Proof.
  intros H. unfold recommend.
  rewrite (proj2 (Nat.eqb_neq _ 0)) by lia. rewrite andb_false_r.
  rewrite (proj2 (Nat.ltb_lt _ _) H).
  apply (emits_bind _ _ tt tt [_] [_]); apply emits_print.
Qed.

Lemma recommend_success report :
  critical_issues report = 0 → report_startup_successful report = true →
  emits (recommend report) tt [success_message].
Proof.
  intros Hc Hs. unfold recommend. rewrite Hc, Hs. apply emits_print.
Qed.

Lemma recommend_worked report :
  critical_issues report = 0 → report_startup_successful report = false →
  emits (recommend report) tt [worked_message (total_issues report)].
Proof.
  intros Hc Hs. unfold recommend. rewrite Hc, Hs. apply emits_print.
Qed.

Lemma main_try_writable env dir java tmo st verdict :
  dir_writable env = true →
  emits (recommend (report_of env (monitored env st dir java tmo))) tt verdict →
  ∃ st' pre,
    main_try env dir java tmo st = (Ok tt, st')
    ∧ stdout st' = stdout st ++ pre ++ verdict
    ∧ length (files st') = S (length (files st)).
Proof.
  intros W Hv.
  destruct (run_test_exact env (constructed st dir java tmo)) as (lines & E);
    [constructor | done |].
  destruct (monitor_logs_console env
              (emit (constructed st dir java tmo) banner)) as (out & Hout & Hf).
  fold (monitored env st dir java tmo) in E, Hout, Hf.
  eexists. exists (banner ++ out ++ lines).
  split; [|split].
  - unfold main_try, try_except.
    rewrite (bind_ok (construct dir java tmo) _ st tt
               (constructed st dir java tmo) eq_refl).
    rewrite (bind_ok _ _ _ _ _ E). rewrite Hv. reflexivity.
  - unfold emit. cbn [stdout]. rewrite Hout. unfold emit, constructed.
    cbn [stdout]. by rewrite <- !app_assoc.
  - unfold emit. cbn [files]. rewrite Hf. unfold emit, constructed.
    cbn [files]. rewrite length_app. simpl. lia.
Qed.

Lemma monitored_content env st dir java tmo text :
  log_artifact env = Content text →
  issues (self (monitored env st dir java tmo))
  = content_issues env (Text.split_lines text) (clock st)
  ∧ startup_successful (self (monitored env st dir java tmo))
    = success_found text.
Proof.
  intros H. unfold monitored. rewrite monitor_logs_exact, H. cbn [snd].
  cbv zeta. by destruct (success_found text).
Qed.

Lemma critical_count_pos env text n :
  has_critical_line text →
  1 ≤ length (filter (fun i : Issue => i !! "severity" = Some "critical")
                (content_issues env (Text.split_lines text) n)).
Proof.
  intros (line & k & Hl & Hk & Hm).
  destruct (content_issues_elem env _ n line k Hl Hm) as (m & Hin).
  assert (signature_issue env line k m
          ∈ filter (fun i : Issue => i !! "severity" = Some "critical")
              (content_issues env (Text.split_lines text) n)) as Hf.
  { apply list_elem_of_filter. split; [|done].
    rewrite signature_issue_severity. unfold severity_of.
    by rewrite bool_decide_true. }
  destruct (filter _ _); [by apply elem_of_nil in Hf | simpl; lia].
Qed.

Lemma critical_count_has env text n :
  1 ≤ length (filter (fun i : Issue => i !! "severity" = Some "critical")
                (content_issues env (Text.split_lines text) n)) →
  has_critical_line text.
Proof.
  destruct (filter _ _) as [|i l] eqn:E; [simpl; lia|]. intros _.
  assert (i ∈ filter (fun i : Issue => i !! "severity" = Some "critical")
                (content_issues env (Text.split_lines text) n)) as Hin
    by (rewrite E; by left).
  apply list_elem_of_filter in Hin as [Hsev Hin].
  apply elem_of_content_issues in Hin as (line & k & m & Hl & Hk & ->).
  rewrite signature_issue_severity in Hsev.
  destruct (severity_of_cases k) as [[_ Hc] | [Hw _]]; [|congruence].
  exists line, k. by rewrite matches_matching.
Qed.

(** X14. The verdict [main] prints last for a readable log whose report
    can be saved.  A line of a critical signature gives ["CRITICAL"] with
    the count, whether or not a success pattern is found.  Without such a
    line, a success pattern gives ["SUCCESS"], warnings or not, and no
    success pattern gives ["WARNING: Startup worked but N issues
    detected"], where [N] is zero exactly when no line matches any
    signature. *)
Theorem main_verdict_readable (env : Env) (dir java : string) (tmo : nat)
    (st : State) (text : string) :
  log_artifact env = Content text →
  dir_writable env = true →
  ∃ st' pre verdict,
    main_try env dir java tmo st = (Ok tt, st')
    ∧ stdout st' = stdout st ++ pre ++ verdict
    ∧ (has_critical_line text →
       ∃ n, 1 ≤ n ∧ verdict = [critical_message n; recommend_line])
    ∧ (¬ has_critical_line text → success_found text = true →
       verdict = [success_message])
    ∧ (¬ has_critical_line text → success_found text = false →
       ∃ n, verdict = [worked_message n]
            ∧ (n = 0 ↔
               ∀ line k, line ∈ Text.split_lines text → ¬ matches k line)).
Proof.
  intros H W.
  destruct (monitored_content env st dir java tmo text H) as [Hi Hs].
  set (report := report_of env (monitored env st dir java tmo)).
  assert (critical_issues report
          = length (filter (fun i : Issue => i !! "severity" = Some "critical")
                      (content_issues env (Text.split_lines text) (clock st))))
    as Hcrit by (unfold report, report_of; cbn [critical_issues]; by rewrite Hi).
  assert (total_issues report
          = length (content_issues env (Text.split_lines text) (clock st)))
    as Htot by (unfold report, report_of; cbn [total_issues]; by rewrite Hi).
  assert (report_startup_successful report = success_found text)
    as Hflag by (unfold report, report_of; cbn [report_startup_successful];
                 by rewrite Hs).
  assert (∃ verdict,
            emits (recommend report) tt verdict
            ∧ (has_critical_line text →
               ∃ n, 1 ≤ n ∧ verdict = [critical_message n; recommend_line])
            ∧ (¬ has_critical_line text → success_found text = true →
               verdict = [success_message])
            ∧ (¬ has_critical_line text → success_found text = false →
               ∃ n, verdict = [worked_message n]
                    ∧ (n = 0 ↔
                       ∀ line k, line ∈ Text.split_lines text →
                                 ¬ matches k line)))
    as (verdict & Hv & Hcases).
  { destruct (Nat.eq_dec (critical_issues report) 0) as [Hz|Hnz].
    - assert (¬ has_critical_line text) as Hno.
      { intros Hc%(critical_count_pos env text (clock st)). lia. }
      destruct (success_found text) eqn:Hsf.
      + exists [success_message].
        split; [apply recommend_success; congruence|].
        repeat split; try done.
      + exists [worked_message (total_issues report)].
        split; [apply recommend_worked; congruence|].
        repeat split; try done. intros _ _. eexists. split; [reflexivity|].
        rewrite Htot, <- (content_issues_nil env _ (clock st)).
        split; [by intros ?%nil_length_inv | by intros ->].
    - exists [critical_message (critical_issues report); recommend_line].
      split; [apply recommend_critical; lia|].
      assert (has_critical_line text) as Hyes.
      { apply (critical_count_has env text (clock st)). lia. }
      repeat split; try done. intros _. eexists. split; [|done]. lia. }
  destruct (main_try_writable env dir java tmo st verdict W Hv)
    as (st' & pre & E & Hout & _).
  exists st', pre, verdict. by split; [|split].
Qed.

Lemma main_verdict_readable_witness :
  let env := example_env (Content example_log) true in
  ∃ st' pre verdict,
    main_try env "/mc" "dummy" 300 (fresh "") = (Ok tt, st')
    ∧ stdout st' = stdout (fresh "") ++ pre ++ verdict
    ∧ (has_critical_line example_log →
       ∃ n, 1 ≤ n ∧ verdict = [critical_message n; recommend_line])
    ∧ (¬ has_critical_line example_log → success_found example_log = true →
       verdict = [success_message])
    ∧ (¬ has_critical_line example_log → success_found example_log = false →
       ∃ n, verdict = [worked_message n]
            ∧ (n = 0 ↔
               ∀ line k, line ∈ Text.split_lines example_log →
                         ¬ matches k line)).
Proof.
  intros env.
  apply (main_verdict_readable env "/mc" "dummy" 300 (fresh "") example_log);
    reflexivity.
Defined.

(** X15. The verdict of [main] when there is no readable log and the
    report can be saved.  A missing log ([exists()] is false) and an
    unreadable one ([open] or [read] raises) give ["CRITICAL"] for one
    issue.  When [exists()] itself raises, the thread of [monitor_logs]
    ends without an issue, and [main] ends with ["WARNING: Startup worked
    but 0 issues detected"]. *)
Theorem main_verdict_without_log (env : Env) (dir java : string) (tmo : nat)
    (st : State) :
  (∀ text, log_artifact env ≠ Content text) →
  dir_writable env = true →
  ∃ st' pre,
    main_try env dir java tmo st = (Ok tt, st')
    ∧ stdout st'
      = stdout st ++ pre
          ++ match log_artifact env with
             | Inaccessible _ => [worked_message 0]
             | _ => [critical_message 1; recommend_line]
             end.
Proof.
  intros Hno W.
  assert (emits (recommend (report_of env (monitored env st dir java tmo))) tt
            match log_artifact env with
            | Inaccessible _ => [worked_message 0]
            | _ => [critical_message 1; recommend_line]
            end) as Hv.
  { assert (∀ i : Issue,
              i !! "severity" = Some "critical" →
              issues (self (monitored env st dir java tmo)) = [i] →
              emits (recommend (report_of env (monitored env st dir java tmo)))
                tt [critical_message 1; recommend_line]) as Hone.
    { intros i Hsev Hi.
      assert (critical_issues
                (report_of env (monitored env st dir java tmo)) = 1) as Hc.
      { unfold report_of. cbn [critical_issues]. rewrite Hi.
        by rewrite filter_cons, decide_True. }
      rewrite <- Hc. apply recommend_critical. lia. }
    assert (issues (self (monitored env st dir java tmo))
            = match log_artifact env with
              | Absent =>
                  [missing_issue
                     (log_file (self (emit (constructed st dir java tmo)
                                        banner)))]
              | Inaccessible _ => []
              | Unreadable err => [read_error_issue (OSError err)]
              | Content text =>
                  content_issues env (Text.split_lines text) (clock st)
              end
            ∧ startup_successful (self (monitored env st dir java tmo))
              = match log_artifact env with
                | Content text => success_found text
                | _ => false
                end) as [Hi Hs].
    { unfold monitored. rewrite monitor_logs_exact. cbn [snd].
      destruct (log_artifact env) as [|err|err|text]; [done..|].
      cbv zeta. by destruct (success_found text). }
    destruct (log_artifact env) as [|err|err|text];
      [| | |by destruct (Hno text)].
    - eapply Hone; [|exact Hi]. by dict_lookup.
    - replace 0 with (total_issues
                        (report_of env (monitored env st dir java tmo)))
        by (unfold report_of; cbn [total_issues]; by rewrite Hi).
      apply recommend_worked.
      + unfold report_of. cbn [critical_issues]. by rewrite Hi.
      + unfold report_of. cbn [report_startup_successful]. by rewrite Hs.
    - eapply Hone; [|exact Hi]. by dict_lookup. }
  destruct (main_try_writable env dir java tmo st _ W Hv)
    as (st' & pre & E & H & _).
  by exists st', pre.
Qed.

Lemma main_verdict_without_log_witness :
  ∃ st' pre,
    main_try (example_env (Inaccessible "Permission denied") true)
      "/mc" "dummy" 300 (fresh "")
    = (Ok tt, st')
    ∧ stdout st'
      = stdout (fresh "") ++ pre
          ++ match log_artifact
                     (example_env (Inaccessible "Permission denied") true) with
             | Inaccessible _ => [worked_message 0]
             | _ => [critical_message 1; recommend_line]
             end.
Proof.
  apply (main_verdict_without_log
           (example_env (Inaccessible "Permission denied") true)
           "/mc" "dummy" 300 (fresh "")).
  - intros text. discriminate.
  - reflexivity.
Defined.

(** X16. [main] catches the failure to save the report: it does not
    raise, its last line is ["Error running test: ..."] with no verdict
    after it, and no file is written; the issues found stay on the
    tester. *)
Theorem main_try_reports_save_failure (env : Env) (dir java : string)
    (tmo : nat) (st : State) :
  dir_writable env = false →
  ∃ st' pre msg,
    main_try env dir java tmo st = (Ok tt, st')
    ∧ stdout st' = stdout st ++ pre ++ ["Error running test: " +:+ msg]
    ∧ files st' = files st
    ∧ issues (self st') = issues (self (monitored env st dir java tmo)).
Proof.
  intros W.
  destruct (generate_report_unwritable env (monitored env st dir java tmo))
    as (msg & E); [apply monitor_logs_well_formed; constructor | done |].
  destruct (monitor_logs_console env
              (emit (constructed st dir java tmo) banner)) as (out & Hout & Hf).
  fold (monitored env st dir java tmo) in Hout, Hf.
  eexists. exists (banner ++ out), msg. split; [|split; [|split]].
  - unfold main_try, try_except.
    rewrite (bind_ok (construct dir java tmo) _ st tt
               (constructed st dir java tmo) eq_refl).
    unfold monitored in E at 1.
    rewrite <- (run_test_from _ _ _ _
                  (monitor_logs_pair env (emit (constructed st dir java tmo)
                                            banner))) in E.
    rewrite (bind_raise _ _ _ _ _ E). reflexivity.
  - unfold emit. cbn [stdout]. rewrite Hout. unfold emit, constructed.
    cbn [stdout exn_text]. by rewrite <- !app_assoc.
  - unfold emit. cbn [files]. by rewrite Hf.
  - done.
Qed.

Lemma main_try_reports_save_failure_witness :
  ∃ st' pre msg,
    main_try (example_env (Content example_log) false) "/mc" "dummy" 300
      (fresh "") = (Ok tt, st')
    ∧ stdout st' = stdout (fresh "") ++ pre ++ ["Error running test: " +:+ msg]
    ∧ files st' = files (fresh "")
    ∧ issues (self st')
      = issues (self (monitored (example_env (Content example_log) false)
                        (fresh "") "/mc" "dummy" 300)).
Proof.
  apply (main_try_reports_save_failure
           (example_env (Content example_log) false) "/mc" "dummy" 300
           (fresh "")).
  reflexivity.
Defined.

(** ** The tables, read as phrases *)

Lemma assoc_unique {B} (l : list (string * B)) k p p' :
  NoDup l.*1 → (k, p) ∈ l → (k, p') ∈ l → p = p'.
Proof.
  induction l as [|[k0 p0] l IH]; intros Hnd H1 H2.
  - by apply elem_of_nil in H1.
  - rewrite fmap_cons in Hnd. apply NoDup_cons in Hnd as [Hk Hnd].
    apply elem_of_cons in H1 as [E1|H1]; apply elem_of_cons in H2 as [E2|H2].
    + congruence.
    + injection E1 as -> ->. exfalso. apply Hk.
      apply list_elem_of_fmap. by exists (k0, p').
    + injection E2 as -> ->. exfalso. apply Hk.
      apply list_elem_of_fmap. by exists (k0, p).
    + by apply IH.
Qed.

Lemma matches_entry k p line :
  (k, p) ∈ error_patterns → (matches k line ↔ search p line = true).
Proof.
  intros Hin. split.
  - intros (p' & Hin' & Hs).
    by rewrite (assoc_unique _ _ _ _ NoDup_error_kinds Hin Hin').
  - intros Hs. by exists p.
Qed.

Lemma phrases_in_table :
  (fun e : string * list string => (e.1, any_of (str <$> e.2))) <$> phrases
  = take 9 error_patterns.
Proof. reflexivity. Qed.

Lemma phrase_matches k ps q line :
  (k, ps) ∈ phrases → q ∈ ps → occurs_in q line → matches k line.
Proof.
  intros Hin Hq Hocc.
  assert ((k, any_of (str <$> ps)) ∈ error_patterns) as Hentry.
  { apply (subseteq_take 9). rewrite <- phrases_in_table.
    apply list_elem_of_fmap. by exists (k, ps). }
  apply (matches_entry _ _ _ Hentry).
  destruct ps as [|p ps]; [by apply elem_of_nil in Hq|].
  apply search_literals. by exists q.
Qed.

(** X17. When a phrase of a signature made of literal alternatives occurs
    in a line of the log, anywhere in the line and in any case, the report
    has an issue of that signature's kind for the line: its message is the
    line without the surrounding white space and its severity is the one
    of the kind. *)
Theorem phrase_in_line_is_reported (env : Env) (dir text line k q : string)
    (ps : list string) :
  log_artifact env = Content text →
  dir_writable env = true →
  (k, ps) ∈ phrases →
  q ∈ ps →
  line ∈ Text.split_lines text →
  occurs_in q line →
  ∃ report st i,
    run_test env (fresh dir) = (Ok report, st)
    ∧ i ∈ report_issues report
    ∧ i !! "type" = Some k
    ∧ i !! "message" = Some (Text.strip line)
    ∧ i !! "severity" = Some (severity_of k).
Proof.
  intros H Hw Hin Hq Hline Hocc.
  pose proof (phrase_matches k ps q line Hin Hq Hocc) as Hmatch.
  destruct (monitor_logs_content env text (emit (fresh dir) banner) H)
    as (st1 & Hmon & Hi & _).
  pose proof (run_test_report env dir st1 Hmon) as Hrun.
  rewrite Hi in Hrun.
  destruct (run_test env (fresh dir)) as [[report|e] st'].
  - destruct Hrun as [-> _]; [apply content_issues_well_formed|].
    destruct (content_issues_elem env _ (clock (emit (fresh dir) banner))
                _ _ Hline Hmatch) as (m & Hi').
    exists (report_of env st1), st', (signature_issue env line k m).
    cbn [report_of report_issues]. rewrite Hi.
    split; [done|]. split; [exact Hi'|].
    split; [apply signature_issue_type|].
    split; [apply signature_issue_message | apply signature_issue_severity].
  - rewrite Hw in Hrun. discriminate Hrun.
    apply content_issues_well_formed.
Qed.

Lemma phrase_in_line_is_reported_witness :
  let line := "  java.lang.OUTOFMEMORYERROR: java heap SPACE  " in
  ∃ report st i,
    run_test (example_env (Content ("[main/INFO]: Loading" +:+ nl +:+ line))
                true) (fresh "/mc")
    = (Ok report, st)
    ∧ i ∈ report_issues report
    ∧ i !! "type" = Some "memory_error"
    ∧ i !! "message" = Some (Text.strip line)
    ∧ i !! "severity" = Some (severity_of "memory_error").
Proof.
  intros line.
  apply (phrase_in_line_is_reported
           (example_env (Content ("[main/INFO]: Loading" +:+ nl +:+ line))
              true)
           "/mc" ("[main/INFO]: Loading" +:+ nl +:+ line) line
           "memory_error" "Java heap space"
           ["OutOfMemoryError"; "Java heap space"; "GC overhead limit"]).
  - reflexivity.
  - reflexivity.
  - apply (list_elem_of_lookup_2 _ 5). reflexivity.
  - apply (list_elem_of_lookup_2 _ 1). reflexivity.
  - apply (list_elem_of_lookup_2 _ 1). vm_compute. reflexivity.
  - exists "  java.lang.OUTOFMEMORYERROR: ", "java heap SPACE", "  ".
    split; reflexivity.
Defined.

Lemma accepts_star_dot s :
  accepts (Star Dot) s ↔ every (fun c => negb (Text.is_newline c)) s = true.
Proof.
  split.
  - intros Hacc. remember (Star Dot) as r eqn:Er.
    induction Hacc as [| | | | | | | |r0|r0 t1 t2 Hne Hround _ Hrest IH];
      try discriminate; [done|].
    injection Er as ->.
    inversion Hround as [| |a Ha| | | | | | |]; subst.
    rewrite app_cons, app_empty_l. simpl. by rewrite Ha, IH.
  - induction s as [|a s IH]; [constructor|].
    simpl. intros [Ha Hs]%andb_true_iff.
    change (String a s) with (String a "" +:+ s).
    apply accepts_star_round; [done| |by apply IH].
    constructor. by destruct (Text.is_newline a).
Qed.

Lemma accepts_gap a b s :
  accepts (gap a b) s ↔
  ∃ sa mid sb, s = sa +:+ mid +:+ sb
    ∧ same_folded sa a ∧ same_folded sb b
    ∧ every (fun c => negb (Text.is_newline c)) mid = true.
Proof.
  unfold gap. split.
  - inversion 1 as [| | | | |? ? sa rest Ha Hrest| | | |]; subst.
    inversion Hrest as [| | | | |? ? mid sb Hmid Hb| | | |]; subst.
    exists sa, mid, sb. split; [done|].
    by rewrite <- !accepts_str, <- accepts_star_dot.
  - intros (sa & mid & sb & -> & Ha & Hb & Hmid).
    constructor; [by apply accepts_str|].
    constructor; [by apply accepts_star_dot | by apply accepts_str].
Qed.

Lemma search_gap a b s : search (gap a b) s = true ↔ spans a b s.
Proof.
  rewrite search_accepts. unfold spans. split.
  - intros (pre & m & post & -> & (sa & mid & sb & -> & ? & ? & ?)%accepts_gap).
    exists pre, sa, mid, sb, post. by rewrite !app_assoc_string.
  - intros (pre & sa & mid & sb & post & -> & ? & ? & ?).
    exists pre, (sa +:+ mid +:+ sb), post. rewrite !app_assoc_string.
    split; [done|]. apply accepts_gap. by exists sa, mid, sb.
Qed.

Lemma search_str p s : search (str p) s = true ↔ occurs_in p s.
Proof.
  rewrite search_accepts. unfold occurs_in.
  by setoid_rewrite accepts_str.
Qed.

Lemma search_alt r1 r2 s :
  search (Alt r1 r2) s = true ↔ search r1 s = true ∨ search r2 s = true.
Proof.
  rewrite !search_accepts. split.
  - intros (pre & mid & post & -> & Hacc).
    inversion Hacc; subst; [left | right]; by exists pre, mid, post.
  - intros [(pre & mid & post & -> & ?)|(pre & mid & post & -> & ?)];
      exists pre, mid, post; (split; [done|]);
      [by apply accepts_alt_l | by apply accepts_alt_r].
Qed.

(** X18. A line matches the [forge_error] signature exactly when
    ["FML"] occurs in it, or ["Forge"] (or ["ModLauncher"]) and, later in
    the line, ["error"], all in any case. *)
Theorem forge_signature_reading (line : string) :
  matches "forge_error" line ↔
  occurs_in "FML" line
  ∨ spans "Forge" "error" line
  ∨ spans "ModLauncher" "error" line.
Proof.
  rewrite (matches_entry "forge_error"
             (any_of [str "FML"; gap "Forge" "error";
                      gap "ModLauncher" "error"])).
  - cbn [any_of fold_left].
    rewrite !search_alt, !search_gap, search_str. tauto.
  - apply (list_elem_of_lookup_2 _ 9). reflexivity.
Qed.

Lemma success_phrase_found text :
  spans "Minecraft main menu" "displayed" text
  ∨ spans "Successfully loaded" "main menu" text
  ∨ occurs_in "Client successfully started" text
  ∨ occurs_in "Reached main menu" text →
  success_found text = true.
Proof.
  unfold success_found, success_patterns. cbn [existsb].
  rewrite !orb_true_iff, !search_gap, !search_str. tauto.
Qed.

(** X19. The report says the startup succeeded as soon as the log has one
    of the two fixed success phrases, or one of the two pairs of phrases
    with the second after the first and no line feed between them, all in
    any case. *)
Theorem success_phrase_reports_startup (env : Env) (dir text : string) :
  log_artifact env = Content text →
  dir_writable env = true →
  spans "Minecraft main menu" "displayed" text
  ∨ spans "Successfully loaded" "main menu" text
  ∨ occurs_in "Client successfully started" text
  ∨ occurs_in "Reached main menu" text →
  ∃ report st,
    run_test env (fresh dir) = (Ok report, st)
    ∧ report_startup_successful report = true.
Proof.
  intros H Hw Hphrase%success_phrase_found.
  destruct (monitor_logs_content env text (emit (fresh dir) banner) H)
    as (st1 & Hmon & Hi & _ & Hs).
  pose proof (run_test_report env dir st1 Hmon) as Hrun.
  rewrite Hi in Hrun.
  destruct (run_test env (fresh dir)) as [[report|e] st'].
  - destruct Hrun as [-> _]; [apply content_issues_well_formed|].
    exists (report_of env st1), st'. split; [done|].
    cbn [report_of report_startup_successful]. rewrite Hs.
    fold (success_found text). rewrite Hphrase. apply orb_true_r.
  - rewrite Hw in Hrun. discriminate Hrun.
    apply content_issues_well_formed.
Qed.

Lemma success_phrase_reports_startup_witness :
  let text :=
    "[Render thread/INFO]: SUCCESSFULLY LOADED 12 mods, showing Main Menu" in
  ∃ report st,
    run_test (example_env (Content text) true) (fresh "/mc") = (Ok report, st)
    ∧ report_startup_successful report = true.
Proof.
  intros text.
  apply (success_phrase_reports_startup
           (example_env (Content text) true) "/mc" text).
  - reflexivity.
  - reflexivity.
  - right. left.
    exists "[Render thread/INFO]: ", "SUCCESSFULLY LOADED",
      " 12 mods, showing ", "Main Menu", "".
    repeat split; reflexivity.
Defined.

(** ** Witnesses on the example logs *)

Lemma critical_block_shows_all_witness :
  let crit :=
    critical_of (snd (monitor_logs
                        (example_env (Content example_critical_log) true)
                        (fresh "/mc"))) in
  length crit = 6
  ∧ ∃ entries,
      Forall2 (fun i e => issue_line i = Ok e) crit entries
      ∧ emits (print_criticals crit) tt
          (match crit with
           | [] => []
           | _ => critical_header
                    :: concat (zip_with (fun i e => e :: related_mod_line i)
                                 crit entries)
           end).
Proof.
  intros crit. split; [vm_compute; reflexivity|].
  apply (critical_block_shows_all crit).
  apply Forall_filtered, monitor_logs_well_formed. constructor.
Defined.

Lemma summary_layout_witness :
  let env := example_env (Content example_warnings_log) true in
  let st := snd (monitor_logs env (fresh "/mc")) in
  ∃ cb wb st',
    emits (print_criticals (critical_of st)) tt cb
    ∧ emits (print_warnings (warnings_of st)) tt wb
    ∧ generate_report env st = (Ok (report_of env st), st')
    ∧ stdout st'
      = stdout st
        ++ summary_head env st
        ++ match issues (self st) with
           | [] => []
           | _ => [nl +:+ "ISSUES DETECTED:"; Text.repeat "-" 40] ++ cb ++ wb
           end
        ++ [saved_line env st]
    ∧ (critical_of st = [] → cb = [])
    ∧ (warnings_of st = [] → wb = []).
Proof.
  intros env st. apply (summary_layout env st).
  - apply monitor_logs_well_formed. constructor.
  - reflexivity.
Defined.

Lemma unwritable_report_prints_nothing_witness :
  let env := example_env (Content example_warnings_log) false in
  let st := snd (monitor_logs env (fresh "/mc")) in
  ∃ msg st',
    generate_report env st = (Raise (OSError msg), st')
    ∧ stdout st' = stdout st
    ∧ files st' = files st
    ∧ self st' = self st.
Proof.
  intros env st. apply (unwritable_report_prints_nothing env st).
  - apply monitor_logs_well_formed. constructor.
  - reflexivity.
Defined.

Lemma report_saved_is_report_returned_witness :
  let env := example_env (Content example_warnings_log) true in
  let st := snd (monitor_logs env (fresh "/mc")) in
  ∃ report st' stamp,
    generate_report env st = (Ok report, st')
    ∧ files st'
      = files st
        ++ [(path_join (minecraft_dir (self st))
               ("startup_test_report_" +:+ stamp +:+ ".json"), report)]
    ∧ self st' = self st
    ∧ report_issues report = issues (self st)
    ∧ report_startup_successful report = startup_successful (self st)
    ∧ minecraft_directory report = minecraft_dir (self st).
Proof.
  intros env st. apply (report_saved_is_report_returned env st).
  - apply monitor_logs_well_formed. constructor.
  - reflexivity.
Defined.

(** X13. When [exists()] itself raises, the exception ends the monitor
    thread, not the run: a run of a fresh tester that can save its report
    still returns one, in which no issue records the failure and
    [startup_successful] is false. *)
Theorem inaccessible_log_leaves_no_trace (env : Env) (dir err : string) :
  log_artifact env = Inaccessible err →
  match run_test env (fresh dir) with
  | (Ok report, _) =>
      report_issues report = []
      ∧ total_issues report = 0
      ∧ critical_issues report = 0
      ∧ warning_issues report = 0
      ∧ report_startup_successful report = false
  | (Raise _, _) => dir_writable env = false
  end.
Proof.
  intros H.
  pose proof (run_test_report_from env dir _ _
                (monitor_logs_inaccessible env err _ H)) as Hrun.
  destruct (run_test env (fresh dir)) as [[report|e] st'].
  - by destruct Hrun as [-> _]; [constructor|].
  - apply Hrun. constructor.
Qed.

Lemma inaccessible_log_leaves_no_trace_witness :
  match run_test (example_env (Inaccessible "Permission denied") true)
          (fresh "/mc") with
  | (Ok report, _) =>
      report_issues report = []
      ∧ total_issues report = 0
      ∧ critical_issues report = 0
      ∧ warning_issues report = 0
      ∧ report_startup_successful report = false
  | (Raise _, _) =>
      dir_writable (example_env (Inaccessible "Permission denied") true)
      = false
  end.
Proof.
  apply (inaccessible_log_leaves_no_trace
           (example_env (Inaccessible "Permission denied") true) "/mc"
           "Permission denied").
  reflexivity.
Defined.
